(** * The credit economy of the figurine plugin

    A shallow embedding of [economy.py] (class [EconomyManager]) and of the
    part of [main.py] that charges a request and gives the charge back when
    image generation fails, followed by the preset store
    ([preset_manager.py]), the administrator's credit command of [main.py]
    and the picture helpers of [utils.py] (download retries, the pictures
    of a message, the geometry of the preview table).

    - Python [int] is [Z]; the three in-memory dictionaries are [gmap]s
      keyed by strings; [d.get(k, 0)] is [dict_get d k 0]. A user or group
      id is the string [str(id)] that the source uses as key.
    - The manager object is threaded through a small state monad [M].
      [_save_json] swallows every write error, so for the manager a save is
      only an entry in the log of issued writes.
    - What a call cannot know by itself (the date, the random draw, the
      outcome of the image generation) is an explicit argument.
    - User-visible messages are the strings of the source. *)

From Stdlib Require Import ZArith Lia.
From stdpp Require Import gmap strings list fin_maps pretty sorting.

Open Scope string_scope.
Open Scope Z_scope.

(** ** Configuration *)

(** [AstrBotConfig] is a dictionary; a field is [None] when its key is
    absent. *)
Record AstrBotConfig := {
  enable_user_limit : option bool;
  enable_group_limit : option bool;
  enable_checkin : option bool;
  checkin_fixed_reward : option Z;
  enable_random_checkin : option bool;
  checkin_random_reward_max : option Z
}.

(** [conf.get(key, dflt)] *)
Definition conf_get {A : Type} (field : option A) (dflt : A) : A :=
  default dflt field.

(** [conf.get(key)] used as a condition: an absent key yields [None],
    which is falsy. *)
Definition conf_truthy (field : option bool) : bool :=
  default false field.

(** ** The manager and its monad *)

Inductive Path := user_counts_file | group_counts_file | user_checkin_file.

Inductive Dump :=
| DumpCounts (d : gmap string Z)
| DumpDates (d : gmap string string).

Record EconomyManager := {
  user_counts : gmap string Z;
  group_counts : gmap string Z;
  user_checkin_data : gmap string string;
  (* writes issued through [_save_json], newest first *)
  written : list (Path * Dump)
}.

Definition M (A : Type) : Type := EconomyManager -> A * EconomyManager.

Definition ret {A : Type} (a : A) : M A := fun em => (a, em).

Definition bind {A B : Type} (c : M A) (k : A -> M B) : M B :=
  fun em => let (a, em') := c em in k a em'.

Definition gets {A : Type} (f : EconomyManager -> A) : M A :=
  fun em => (f em, em).

Definition modify (f : EconomyManager -> EconomyManager) : M unit :=
  fun em => (tt, f em).

Definition exec {A : Type} (c : M A) (em : EconomyManager) : EconomyManager :=
  snd (c em).

Definition eval {A : Type} (c : M A) (em : EconomyManager) : A :=
  fst (c em).

Declare Scope econ_scope.
Delimit Scope econ_scope with econ.
Notation "x <- c1 ;; c2" := (bind c1 (fun x => c2))
  (at level 100, c1 at next level, right associativity) : econ_scope.
Notation "c1 ;; c2" := (bind c1 (fun _ => c2))
  (at level 100, right associativity) : econ_scope.
Open Scope econ_scope.

(** [d.get(k, dflt)] *)
Definition dict_get {V : Type} (d : gmap string V) (k : string) (dflt : V) : V :=
  default dflt (d !! k).

(** [self.user_counts[uid] = v] *)
Definition store_user (uid : string) (v : Z) (em : EconomyManager) : EconomyManager :=
  {| user_counts := <[uid := v]> (user_counts em);
     group_counts := group_counts em;
     user_checkin_data := user_checkin_data em;
     written := written em |}.

(** [self.group_counts[gid] = v] *)
Definition store_group (gid : string) (v : Z) (em : EconomyManager) : EconomyManager :=
  {| user_counts := user_counts em;
     group_counts := <[gid := v]> (group_counts em);
     user_checkin_data := user_checkin_data em;
     written := written em |}.

(** [self.user_checkin_data[uid] = day] *)
Definition store_checkin (uid day : string) (em : EconomyManager) : EconomyManager :=
  {| user_counts := user_counts em;
     group_counts := group_counts em;
     user_checkin_data := <[uid := day]> (user_checkin_data em);
     written := written em |}.

(** A write of [data] to [path] was issued. *)
Definition log_write (path : Path) (data : Dump) (em : EconomyManager) : EconomyManager :=
  {| user_counts := user_counts em;
     group_counts := group_counts em;
     user_checkin_data := user_checkin_data em;
     written := (path, data) :: written em |}.

Definition set_user_count (uid : string) (v : Z) : M unit :=
  modify (store_user uid v).

Definition set_group_count (gid : string) (v : Z) : M unit :=
  modify (store_group gid v).

Definition set_checkin (uid day : string) : M unit :=
  modify (store_checkin uid day).

(** [await self._save_json(path, data)]: the write is issued; a failure
    is logged and swallowed, the in-memory dictionaries are not touched. *)
Definition _save_json (path : Path) (data : Dump) : M unit :=
  modify (log_write path data).

Definition save_user_counts : M unit :=
  d <- gets user_counts ;; _save_json user_counts_file (DumpCounts d).

Definition save_group_counts : M unit :=
  d <- gets group_counts ;; _save_json group_counts_file (DumpCounts d).

Definition save_user_checkin : M unit :=
  d <- gets user_checkin_data ;; _save_json user_checkin_file (DumpDates d).

Definition get_user_count (em : EconomyManager) (user_id : string) : Z :=
  dict_get (user_counts em) user_id 0.

Definition get_group_count (em : EconomyManager) (group_id : string) : Z :=
  dict_get (group_counts em) group_id 0.

(** ** Admission: [check_and_deduct] *)

(** [gid = str(group_id) if group_id else None]: [None] and the empty
    string are falsy. *)
Definition canonical_gid (group_id : option string) : option string :=
  match group_id with
  | Some g => if String.eqb g "" then None else Some g
  | None => None
  end.

Definition cost : Z := 1.

Definition msg_unlimited : string := "无限制模式".
Definition msg_group_veto (g_cnt : Z) : string :=
  "本群剩余次数不足 (" +:+ pretty g_cnt +:+ "次)".
Definition msg_both_short (u_cnt g_cnt : Z) : string :=
  "您的次数不足 (" +:+ pretty u_cnt +:+ ")，且群次数也不足 (" +:+ pretty g_cnt +:+ ")".
Definition msg_user_short (u_cnt : Z) : string :=
  "您的次数不足 (" +:+ pretty u_cnt +:+ ")".
Definition msg_group_short : string := "本群次数不足".
Definition msg_success : string := "success".
Definition msg_no_limit : string := "未开启限制".

(** Where the body of [check_and_deduct] stands after the charging logic:
    it has returned, or it falls through to the saving code with its two
    locals. *)
Inductive Flow :=
| Returned (r : bool * string)
| Fell (deducted : bool) (source : string).

(** [if gid and enable_group_limit] *)
Definition group_gated (gid : option string) (enable_group_limit : bool) : option string :=
  match gid with
  | Some g => if enable_group_limit then Some g else None
  | None => None
  end.

(** Lines 73-110: the group check, then the user check with its group
    fallback, then the group-only case. *)
Definition charge (eul egl : bool) (uid : string) (gid : option string) : M Flow :=
  vetoed <-
    match group_gated gid egl with
    | Some g =>
        g_cnt <- gets (fun em => dict_get (group_counts em) g 0) ;;
        if g_cnt <? cost then ret (Some (false, msg_group_veto g_cnt))
        else ret None
    | None => ret None
    end ;;
  match vetoed with
  | Some r => ret (Returned r)
  | None =>
      if eul then
        u_cnt <- gets (fun em => dict_get (user_counts em) uid 0) ;;
        if u_cnt >=? cost then
          set_user_count uid (u_cnt - cost) ;;
          ret (Fell true "user")
        else
          match group_gated gid egl with
          | Some g =>
              g_cnt <- gets (fun em => dict_get (group_counts em) g 0) ;;
              if g_cnt >=? cost then
                set_group_count g (g_cnt - cost) ;;
                ret (Fell true "group")
              else ret (Returned (false, msg_both_short u_cnt g_cnt))
          | None => ret (Returned (false, msg_user_short u_cnt))
          end
      else
        match group_gated gid egl with
        | Some g =>
            g_cnt <- gets (fun em => dict_get (group_counts em) g 0) ;;
            if g_cnt >=? cost then
              set_group_count g (g_cnt - cost) ;;
              ret (Fell true "group")
            else ret (Returned (false, msg_group_short))
        | None => ret (Fell false "")
        end
  end.

Definition when (b : bool) (c : M unit) : M unit :=
  if b then c else ret tt.

Definition check_and_deduct (conf : AstrBotConfig) (user_id : string)
    (group_id : option string) : M (bool * string) :=
  let uid := user_id in
  let gid := canonical_gid group_id in
  let eul := conf_get (enable_user_limit conf) true in
  let egl := conf_get (enable_group_limit conf) false in
  if negb eul && negb egl then ret (true, msg_unlimited)
  else
    flow <- charge eul egl uid gid ;;
    match flow with
    | Returned r => ret r
    | Fell deducted source =>
        if deducted then
          when (String.eqb source "user") save_user_counts ;;
          when (String.eqb source "group") save_group_counts ;;
          ret (true, msg_success)
        else ret (true, msg_no_limit)
    end.

(** ** Exceptions *)

Inductive Exn := ValueError | KeyError | OSError | DecodeError.

Inductive Result (A : Type) :=
| Ok (a : A)
| Raise (e : Exn).
Arguments Ok {A} a.
Arguments Raise {A} e.

(** [d[k]] *)
Definition subscript {V : Type} (d : gmap string V) (k : string) : Result V :=
  match d !! k with
  | Some v => Ok v
  | None => Raise KeyError
  end.

(** ** Daily check-in *)

(** [random.randint(a, b)]: an integer [N] with [a <= N <= b], and
    [ValueError] on an empty range. The generator's state is the
    [entropy] argument, reduced into the range. *)
Definition randint (a b : Z) (entropy : Z) : Result Z :=
  if b <? a then Raise ValueError
  else Ok (a + entropy mod (b - a + 1)).

(** Lines 133-136. *)
Definition checkin_reward (conf : AstrBotConfig) (entropy : Z) : Result Z :=
  let reward := conf_get (checkin_fixed_reward conf) 3 in
  if conf_get (enable_random_checkin conf) false then
    let max_r := conf_get (checkin_random_reward_max conf) 5 in
    randint 1 (Z.max 1 max_r) entropy
  else Ok reward.

Definition newline : string := String (Ascii.ascii_of_nat 10) EmptyString.

Definition msg_checkin_off : string := "❌ 签到功能未开启。".
Definition msg_checked_in (curr : Z) : string :=
  "📅 您今天已经签到过了。剩余次数: " +:+ pretty curr.
Definition msg_granted (reward now : Z) : string :=
  "🎉 签到成功！获得 " +:+ pretty reward +:+ " 次。" +:+ newline
    +:+ "当前剩余: " +:+ pretty now.

(** [today] is [datetime.now().strftime("%Y-%m-%d")]. *)
Definition checkin (conf : AstrBotConfig) (today : string) (entropy : Z)
    (user_id : string) : M (Result string) :=
  if negb (conf_get (enable_checkin conf) false) then ret (Ok msg_checkin_off)
  else
    let uid := user_id in
    last <- gets (fun em => user_checkin_data em !! uid) ;;
    if bool_decide (last = Some today) then
      curr <- gets (fun em => dict_get (user_counts em) uid 0) ;;
      ret (Ok (msg_checked_in curr))
    else
      match checkin_reward conf entropy with
      | Raise e => ret (Raise e)
      | Ok reward =>
          current <- gets (fun em => dict_get (user_counts em) uid 0) ;;
          set_user_count uid (current + reward) ;;
          set_checkin uid today ;;
          save_user_counts ;;
          save_user_checkin ;;
          now <- gets (fun em => subscript (user_counts em) uid) ;;
          match now with
          | Ok n => ret (Ok (msg_granted reward n))
          | Raise e => ret (Raise e)
          end
      end.

(** ** Administrative credit *)

Definition msg_added_group (tid : string) (count now : Z) : string :=
  "✅ 已为群 " +:+ tid +:+ " 增加 " +:+ pretty count +:+ " 次 (当前: "
    +:+ pretty now +:+ ")".
Definition msg_added_user (tid : string) (count now : Z) : string :=
  "✅ 已为用户 " +:+ tid +:+ " 增加 " +:+ pretty count +:+ " 次 (当前: "
    +:+ pretty now +:+ ")".

Definition admin_add_points (target_id : string) (count : Z) (is_group : bool)
    : M (Result string) :=
  let tid := target_id in
  if is_group then
    curr <- gets (fun em => dict_get (group_counts em) tid 0) ;;
    set_group_count tid (curr + count) ;;
    save_group_counts ;;
    now <- gets (fun em => subscript (group_counts em) tid) ;;
    match now with
    | Ok n => ret (Ok (msg_added_group tid count n))
    | Raise e => ret (Raise e)
    end
  else
    curr <- gets (fun em => dict_get (user_counts em) tid 0) ;;
    set_user_count tid (curr + count) ;;
    save_user_counts ;;
    now <- gets (fun em => subscript (user_counts em) tid) ;;
    match now with
    | Ok n => ret (Ok (msg_added_user tid count n))
    | Raise e => ret (Raise e)
    end.

(** ** The charging part of [FigurineProPlugin.on_message] *)

(** What happens after the request was accepted. *)
Inductive Downstream :=
| NoImage                    (* no picture in the event, preset needs one *)
| ApiFailed (err : string)   (* [_call_api] returned a string *)
| ApiDone.                   (* [_call_api] returned bytes *)

Inductive Reply :=
| Declined (tip : string)
| AskImage
| Drawn (remain : option Z)
| Failed (err : string).

Definition checkin_hint : string :=
  newline +:+ "📅 提示: 发送 #手办化签到 可获取次数".

(** Lines 229-232 and 260-268: the charge is given back by re-reading the
    two switches. *)
Definition refund (conf : AstrBotConfig) (sender_id : string)
    (group_id : option string) : M unit :=
  if conf_truthy (enable_user_limit conf) then
    admin_add_points sender_id 1 false ;; ret tt
  else
    match group_gated (canonical_gid group_id) (conf_truthy (enable_group_limit conf)) with
    | Some g => admin_add_points g 1 true ;; ret tt
    | None => ret tt
    end.

(** [skip_cost] is [is_admin(event)]; the message is assumed to hit a
    preset and the sender not to be blacklisted. *)
Definition on_message (conf : AstrBotConfig) (skip_cost : bool)
    (sender_id : string) (group_id : option string) (down : Downstream)
    : M Reply :=
  outcome <-
    (if skip_cost then ret (true, "")
     else check_and_deduct conf sender_id group_id) ;;
  let '(success, msg) := outcome in
  if negb success then
    ret (Declined (if conf_get (enable_checkin conf) false
                   then msg +:+ checkin_hint else msg))
  else
    match down with
    | NoImage =>
        when (negb skip_cost) (refund conf sender_id group_id) ;;
        ret AskImage
    | ApiDone =>
        if negb skip_cost && conf_truthy (enable_user_limit conf) then
          remain <- gets (fun em => get_user_count em sender_id) ;;
          ret (Drawn (Some remain))
        else ret (Drawn None)
    | ApiFailed err =>
        when (negb skip_cost) (refund conf sender_id group_id) ;;
        ret (Failed err)
    end.

(** ** Loading a store: [_load_json] *)

(** What [json.loads] can return. *)
#[local] Unset Elimination Schemes.
Inductive Json :=
| JNull
| JBool (b : bool)
| JNum (n : Z)
| JStr (s : string)
| JArr (items : list Json)
| JObj (fields : list (string * Json)).
#[local] Set Elimination Schemes.

(** The backing file as the loader meets it. [Path.exists] answers
    [False] when [stat] fails with ENOENT, ENOTDIR, EBADF or ELOOP and
    re-raises every other [OSError] (EACCES on a directory that cannot be
    searched, ENAMETOOLONG, ...). *)
Inductive FileState :=
| Missing
| Inaccessible (e : Exn)      (* [stat] fails and [exists] re-raises *)
| Unreadable (e : Exn)        (* the file is there, [read_text] raises *)
| Contents (text : string).

Definition path_exists (f : FileState) : Result bool :=
  match f with
  | Missing => Ok false
  | Inaccessible e => Raise e
  | Unreadable _ => Ok true
  | Contents _ => Ok true
  end.

Definition read_text (f : FileState) : Result string :=
  match f with
  | Missing => Raise OSError
  | Inaccessible e => Raise e
  | Unreadable e => Raise e
  | Contents text => Ok text
  end.

(** [try: body  except: handler] with a bare [except]. *)
Definition try_except {A : Type} (body : Result A) (handler : Result A) : Result A :=
  match body with
  | Ok a => Ok a
  | Raise _ => handler
  end.

Section Load.

(** The parser of the standard library. *)
Variable json_loads : string -> Result Json.

(** The test [if not path.exists()] stands before the [try]: what it
    raises leaves the function. *)
Definition _load_json (f : FileState) : Result Json :=
  match path_exists f with
  | Raise e => Raise e
  | Ok false => Ok (JObj [])
  | Ok true =>
      try_except
        (match read_text f with
         | Ok text => json_loads text
         | Raise e => Raise e
         end)
        (Ok (JObj []))
  end.

End Load.

(** ** Auxiliary definitions for the properties *)

(** The manager after a user debit and its save. *)
Definition user_debited (uid : string) (em : EconomyManager) : EconomyManager :=
  let em' := store_user uid (get_user_count em uid - cost) em in
  log_write user_counts_file (DumpCounts (user_counts em')) em'.

(** The manager after a group debit and its save. *)
Definition group_debited (g : string) (em : EconomyManager) : EconomyManager :=
  let em' := store_group g (get_group_count em g - cost) em in
  log_write group_counts_file (DumpCounts (group_counts em')) em'.

(** The manager after a credit and its save. *)
Definition user_credited (uid : string) (count : Z) (em : EconomyManager)
    : EconomyManager :=
  let em' := store_user uid (get_user_count em uid + count) em in
  log_write user_counts_file (DumpCounts (user_counts em')) em'.

Definition group_credited (g : string) (count : Z) (em : EconomyManager)
    : EconomyManager :=
  let em' := store_group g (get_group_count em g + count) em in
  log_write group_counts_file (DumpCounts (group_counts em')) em'.

(** The call gets past the unrestricted-mode return and the charging
    logic falls through with [deducted = False], so line 118 answers. *)
Definition catch_all_reached (conf : AstrBotConfig) (user_id : string)
    (group_id : option string) (em : EconomyManager) : bool :=
  let eul := conf_get (enable_user_limit conf) true in
  let egl := conf_get (enable_group_limit conf) false in
  if negb eul && negb egl then false
  else
    match eval (charge eul egl user_id (canonical_gid group_id)) em with
    | Fell false _ => true
    | _ => false
    end.

(** The ledger and subject that [check_and_deduct] debits, read off the
    locals [deducted] and [source]: [(is_group, subject)]. *)
Definition debited_ledger (conf : AstrBotConfig) (user_id : string)
    (group_id : option string) (em : EconomyManager) : option (bool * string) :=
  let eul := conf_get (enable_user_limit conf) true in
  let egl := conf_get (enable_group_limit conf) false in
  if negb eul && negb egl then None
  else
    match eval (charge eul egl user_id (canonical_gid group_id)) em with
    | Fell true source =>
        if String.eqb source "user" then Some (false, user_id)
        else if String.eqb source "group"
        then option_map (pair true) (canonical_gid group_id)
        else None
    | _ => None
    end.

(** Sequences of ledger operations. *)
Inductive Op :=
| Debit (conf : AstrBotConfig) (user_id : string) (group_id : option string)
| Credit (target_id : string) (count : Z) (is_group : bool).

Definition step (em : EconomyManager) (op : Op) : EconomyManager :=
  match op with
  | Debit conf user_id group_id =>
      exec (check_and_deduct conf user_id group_id) em
  | Credit target_id count is_group =>
      exec (admin_add_points target_id count is_group) em
  end.

Definition run (ops : list Op) (em : EconomyManager) : EconomyManager :=
  fold_left step ops em.

Definition positive_credit (op : Op) : Prop :=
  match op with
  | Debit _ _ _ => True
  | Credit _ count _ => 0 < count
  end.

Definition balances_nonneg (em : EconomyManager) : Prop :=
  (forall u, 0 <= get_user_count em u) /\ (forall g, 0 <= get_group_count em g).

Definition accepted (r : bool * string) : bool := fst r.

(** Concrete managers and configurations for the examples. *)
Definition manager (users groups : gmap string Z) : EconomyManager :=
  {| user_counts := users; group_counts := groups;
     user_checkin_data := ∅; written := [] |}.

Definition gates (user_gate group_gate : option bool) : AstrBotConfig :=
  {| enable_user_limit := user_gate; enable_group_limit := group_gate;
     enable_checkin := None; checkin_fixed_reward := None;
     enable_random_checkin := None; checkin_random_reward_max := None |}.

Definition sample_ops : list Op :=
  [ Credit "u" 2 false;
    Debit (gates (Some true) (Some true)) "u" (Some "g");
    Credit "g" 1 true;
    Debit (gates (Some true) (Some true)) "u" (Some "g");
    Debit (gates (Some true) (Some true)) "u" (Some "g");
    Debit (gates (Some true) (Some true)) "u" (Some "g");
    Debit (gates None None) "v" None ].

(** The manager after a granted check-in and its two saves. *)
Definition checked_in (uid today : string) (reward : Z) (em : EconomyManager)
    : EconomyManager :=
  let em1 :=
    store_checkin uid today
      (store_user uid (get_user_count em uid + reward) em) in
  let em2 := log_write user_counts_file (DumpCounts (user_counts em1)) em1 in
  log_write user_checkin_file (DumpDates (user_checkin_data em2)) em2.

Definition checkin_conf (fixed : option Z) (random : option bool)
    (random_max : option Z) : AstrBotConfig :=
  {| enable_user_limit := None; enable_group_limit := None;
     enable_checkin := Some true; checkin_fixed_reward := fixed;
     enable_random_checkin := random; checkin_random_reward_max := random_max |}.

(** A stand-in for [json.loads] on three documents, for the examples. *)
Definition toy_loads (text : string) : Result Json :=
  if String.eqb text "{}" then Ok (JObj [])
  else if String.eqb text "[]" then Ok (JArr [])
  else if String.eqb text "7" then Ok (JNum 7)
  else Raise DecodeError.

(** ** Every entry point of the manager *)

(** A call that the plugin makes on the manager, with what the call
    cannot know by itself. *)
Inductive Event :=
| EvDeduct (conf : AstrBotConfig) (user_id : string) (group_id : option string)
| EvCredit (target_id : string) (count : Z) (is_group : bool)
| EvCheckin (conf : AstrBotConfig) (today : string) (entropy : Z)
    (user_id : string)
| EvMessage (conf : AstrBotConfig) (skip_cost : bool) (sender_id : string)
    (group_id : option string) (down : Downstream).

Definition handle (em : EconomyManager) (ev : Event) : EconomyManager :=
  match ev with
  | EvDeduct conf user_id group_id =>
      exec (check_and_deduct conf user_id group_id) em
  | EvCredit target_id count is_group =>
      exec (admin_add_points target_id count is_group) em
  | EvCheckin conf today entropy user_id =>
      exec (checkin conf today entropy user_id) em
  | EvMessage conf skip_cost sender_id group_id down =>
      exec (on_message conf skip_cost sender_id group_id down) em
  end.

Definition replay (evs : list Event) (em : EconomyManager) : EconomyManager :=
  fold_left handle evs em.

(** Credits are not negative, and neither is a fixed check-in reward. *)
Definition benign (ev : Event) : Prop :=
  match ev with
  | EvCredit _ count _ => 0 <= count
  | EvCheckin conf _ _ _ =>
      conf_get (enable_random_checkin conf) false = false ->
      0 <= conf_get (checkin_fixed_reward conf) 3
  | _ => True
  end.

Definition path_eqb (p q : Path) : bool :=
  match p, q with
  | user_counts_file, user_counts_file => true
  | group_counts_file, group_counts_file => true
  | user_checkin_file, user_checkin_file => true
  | _, _ => false
  end.

(** The newest write issued to [path]. *)
Fixpoint latest (path : Path) (log : list (Path * Dump)) : option Dump :=
  match log with
  | [] => None
  | (p, d) :: rest => if path_eqb p path then Some d else latest path rest
  end.

(** The dictionary that belongs in [path]. *)
Definition in_memory (path : Path) (em : EconomyManager) : Dump :=
  match path with
  | user_counts_file => DumpCounts (user_counts em)
  | group_counts_file => DumpCounts (group_counts em)
  | user_checkin_file => DumpDates (user_checkin_data em)
  end.

(** What [path] holds when every issued write went through: the newest
    write, or what was loaded at start-up when nothing was written. *)
Definition on_disk (loaded : EconomyManager) (em : EconomyManager)
    (path : Path) : Dump :=
  default (in_memory path loaded) (latest path (written em)).

(** The manager after [refund]. *)
Definition refunded (conf : AstrBotConfig) (sender_id : string)
    (group_id : option string) (em : EconomyManager) : EconomyManager :=
  if conf_truthy (enable_user_limit conf) then user_credited sender_id 1 em
  else
    match group_gated (canonical_gid group_id)
            (conf_truthy (enable_group_limit conf)) with
    | Some g => group_credited g 1 em
    | None => em
    end.

(** Memory and disk agree on all three files. *)
Definition flushed (loaded em : EconomyManager) : Prop :=
  forall path, on_disk loaded em path = in_memory path em.

Definition sample_events : list Event :=
  [ EvCheckin (checkin_conf (Some 2) None None) "2024-05-01" 0 "u";
    EvMessage (gates (Some true) (Some true)) false "u" (Some "g") ApiDone;
    EvCredit "g" 3 true;
    EvMessage (gates (Some true) (Some true)) false "u" (Some "g") NoImage;
    EvDeduct (gates (Some false) (Some true)) "v" (Some "g");
    EvCheckin (checkin_conf None (Some true) (Some 0)) "2024-05-02" 41 "u" ].

(** * The preset store: [preset_manager.py] *)

Record PresetManager := {
  presets : gmap string string;
  (* dictionaries handed to [write_text] by [save_all], newest first *)
  presets_written : list (gmap string string)
}.

(** [save_all(data)]: the dictionary becomes [data] and is written out; a
    failing write is printed and swallowed. *)
Definition save_all (data : gmap string string) (pm : PresetManager)
    : PresetManager :=
  {| presets := data; presets_written := data :: presets_written pm |}.

(** [self.presets.get(key, "")] *)
Definition get_prompt (pm : PresetManager) (key : string) : string :=
  dict_get (presets pm) key "".

Definition add_prompt (key prompt : string) (pm : PresetManager)
    : PresetManager :=
  let pm1 := {| presets := <[key := prompt]> (presets pm);
                presets_written := presets_written pm |} in
  save_all (presets pm1) pm1.

Definition delete_prompt (key : string) (pm : PresetManager)
    : bool * PresetManager :=
  if bool_decide (is_Some (presets pm !! key)) then
    let pm1 := {| presets := delete key (presets pm);
                  presets_written := presets_written pm |} in
    (true, save_all (presets pm1) pm1)
  else (false, pm).

(** The order of Python tuples of two strings: by the first component,
    then by the second. Strings are compared by code point, which for
    UTF-8 text is the order of the bytes. *)
Definition item_leb (x y : string * string) : bool :=
  match String.compare (fst x) (fst y) with
  | Lt => true
  | Eq => String.leb (snd x) (snd y)
  | Gt => false
  end.

Definition item_le (x y : string * string) : Prop := item_leb x y = true.

#[local] Instance item_le_dec (x y : string * string) : Decision (item_le x y).
Proof. unfold item_le. apply _. Defined.

(** [sorted(self.presets.items())] *)
Definition get_all (pm : PresetManager) : list (string * string) :=
  merge_sort item_le (map_to_list (presets pm)).

Definition key_lt (x y : string * string) : Prop :=
  String.ltb (fst x) (fst y) = true.

Definition sample_presets : PresetManager :=
  {| presets := {[ "chibi" := "Chibi figure"; "figure" := "1/7 scale figure";
                   "blank" := "" ]};
     presets_written := [] |}.

(** ** From an incoming message to [on_message]'s charging part *)

(** [needle in hay] for strings. *)
Fixpoint contains (needle hay : string) : bool :=
  if String.prefix needle hay then true
  else
    match hay with
    | EmptyString => false
    | String _ rest => contains needle rest
    end.

(** [str(sender) in self.conf.get("admins_id", [])] *)
Definition is_admin (admins_id : list string) (sender_id : string) : bool :=
  bool_decide (sender_id ∈ admins_id).

(** What [_call_api] returned. *)
Inductive ApiResult :=
| ApiBytes
| ApiText (err : string).

(** Lines 192-236 of [on_message]: [parts] is [message_str.strip().split()],
    [images] what [get_images_from_event] found. The answer is [None]
    when the handler returns without a reply. *)
Definition message_entry (pm : PresetManager) (conf : AstrBotConfig)
    (user_blacklist admins_id : list string) (parts : list string)
    (sender_id : string) (group_id : option string)
    (images : list string) (api : ApiResult) : M (option Reply) :=
  match parts with
  | [] => ret None
  | cmd :: _ =>
      let prompt_template := get_prompt pm cmd in
      if String.eqb prompt_template "" then ret None
      else if bool_decide (sender_id ∈ user_blacklist) then ret None
      else
        let skip_cost := is_admin admins_id sender_id in
        let down :=
          if bool_decide (images = []) && negb (contains "text_only" prompt_template)
          then NoImage
          else match api with
               | ApiBytes => ApiDone
               | ApiText err => ApiFailed err
               end in
        reply <- on_message conf skip_cost sender_id group_id down ;;
        ret (Some reply)
  end.

(** * The administrator's command: [cmd_add_points] *)

(** A component of the incoming message; [At qq] carries [str(comp.qq)]. *)
Inductive Component :=
| At (qq : string)
| OtherComponent.

Definition msg_usage : string :=
  "格式: #手办化增加用户次数 <QQ> <数量> 或 @用户 <数量>".

(** Truthiness of an optional string: [None] and the empty string are
    falsy. *)
Definition truthy (s : option string) : bool :=
  match s with
  | Some t => negb (String.eqb t "")
  | None => false
  end.

Section AddPoints.

(** [str.isdigit] and [int] of the Python library; [int] raises
    [ValueError] on text it cannot read. *)
Variable isdigit : string -> bool.
Variable int_of : string -> Result Z.

(** Lines 337-340. *)
Definition first_guess (nums : list string) : Result (option string * option Z) :=
  match nums with
  | _ :: n1 :: rest =>
      match (match rest with
             | n2 :: _ => int_of n2
             | [] => int_of n1
             end) with
      | Ok c => Ok (Some n1, Some c)
      | Raise e => Raise e
      end
  | _ => Ok (None, None)
  end.

(** Lines 345-346: [for n in nums: if str(n) != target: count = int(n)]. *)
Fixpoint scan_nums (target : string) (nums : list string) (count : option Z)
    : Result (option Z) :=
  match nums with
  | [] => Ok count
  | n :: rest =>
      if String.eqb n target then scan_nums target rest count
      else
        match int_of n with
        | Ok c => scan_nums target rest (Some c)
        | Raise e => Raise e
        end
  end.

(** Lines 342-346. *)
Fixpoint scan_components (comps : list Component) (nums : list string)
    (target : option string) (count : option Z)
    : Result (option string * option Z) :=
  match comps with
  | [] => Ok (target, count)
  | At qq :: rest =>
      match scan_nums qq nums count with
      | Ok count' => scan_components rest nums (Some qq) count'
      | Raise e => Raise e
      end
  | OtherComponent :: rest => scan_components rest nums target count
  end.

(** Lines 333-350: the target and the count read from the message. *)
Definition read_target_and_count (parts : list string)
    (comps : list Component) : Result (option string * option Z) :=
  let nums := filter (fun x => isdigit x = true) parts in
  match first_guess nums with
  | Raise e => Raise e
  | Ok (target, count) =>
      match scan_components comps nums target count with
      | Raise e => Raise e
      | Ok (target, count) =>
          if negb (truthy target) && (2 <=? Z.of_nat (length nums)) then
            match nums with
            | n0 :: n1 :: _ =>
                match int_of n1 with
                | Ok c => Ok (Some n0, Some c)
                | Raise e => Raise e
                end
            | _ => Ok (target, count)
            end
          else Ok (target, count)
      end
  end.

(** [parts] is [event.message_str.split()], [comps] is
    [event.message_obj.message]. The answer is [None] when the handler
    returns without a reply. *)
Definition cmd_add_points (admin : bool) (parts : list string)
    (comps : list Component) : M (Result (option string)) :=
  if negb admin then ret (Ok None)
  else
    match read_target_and_count parts comps with
    | Raise e => ret (Raise e)
    | Ok (target, count) =>
        match target, count with
        | Some t, Some c =>
            if truthy target then
              r <- admin_add_points t c false ;;
              match r with
              | Ok msg => ret (Ok (Some msg))
              | Raise e => ret (Raise e)
              end
            else ret (Ok (Some msg_usage))
        | _, _ => ret (Ok (Some msg_usage))
        end
    end.

(** The count is absent or the value of one of the all-digit words. *)
Definition count_from (nums : list string) (count : option Z) : Prop :=
  forall c, count = Some c -> exists n, n ∈ nums /\ int_of n = Ok c.

End AddPoints.

(** Stand-ins for [str.isdigit] and [int] on ASCII text, for the
    examples. *)
Definition is_digit_char (c : Ascii.ascii) : bool :=
  (48 <=? Z.of_nat (Ascii.nat_of_ascii c)) && (Z.of_nat (Ascii.nat_of_ascii c) <=? 57).

Fixpoint all_digits (s : string) : bool :=
  match s with
  | EmptyString => true
  | String c rest => is_digit_char c && all_digits rest
  end.

Definition ascii_isdigit (s : string) : bool :=
  negb (String.eqb s "") && all_digits s.

Fixpoint decimal (s : string) (acc : Z) : Z :=
  match s with
  | EmptyString => acc
  | String c rest => decimal rest (10 * acc + (Z.of_nat (Ascii.nat_of_ascii c) - 48))
  end.

Definition ascii_int (s : string) : Result Z :=
  if ascii_isdigit s then Ok (decimal s 0) else Raise ValueError.

(** * Pictures: [utils.py] *)

(** ** [ImageWorkflow.download_image] *)

(** What one call does on the network, in order. *)
Inductive NetEvent :=
| Get (attempt : nat)     (* one [session.get] with [raise_for_status] *)
| Sleep                   (* [asyncio.sleep(1)] *)
| LogError.

(** The loop [for i in range(max_retries + 1)], at attempt [i] with
    [todo] iterations left. [fetch i] is what attempt [i] produces: the
    body of the response, or [None] when anything raised. *)
Fixpoint download_loop (fetch : nat -> option string) (max_retries : Z)
    (i : nat) (todo : nat) : option string * list NetEvent :=
  match todo with
  | O => (None, [])
  | S todo' =>
      match fetch i with
      | Some body => (Some body, [Get i])
      | None =>
          if Z.of_nat i <? max_retries then
            let (r, evs) := download_loop fetch max_retries (S i) todo' in
            (r, Get i :: Sleep :: evs)
          else (None, [Get i; LogError])
      end
  end.

Definition download_image (fetch : nat -> option string) (max_retries : Z)
    : option string * list NetEvent :=
  download_loop fetch max_retries 0 (Z.to_nat (max_retries + 1)).

(** Attempts [i], [i+1], ..., [i+k] with one sleep between two of
    them. *)
Fixpoint attempts_from (i k : nat) : list NetEvent :=
  match k with
  | O => [Get i]
  | S k' => Get i :: Sleep :: attempts_from (S i) k'
  end.

Definition is_get (ev : NetEvent) : bool :=
  match ev with Get _ => true | _ => false end.

Definition is_sleep (ev : NetEvent) : bool :=
  match ev with Sleep => true | _ => false end.

(** ** [ImageWorkflow.get_images_from_event] *)

(** An [Image] component carries [url] and [file]. *)
Inductive Item :=
| ImageItem (url file : option string)
| OtherItem.

Inductive Segment :=
| SegImage (url file : option string)
| SegReply (chain : list Item)
| SegOther.

Section Images.

(** The outside world and the two ways of getting bytes from it:
    [download_image(url)] and [_load_local(path)], each answering
    [None] on failure. *)
Variable World : Type.
Variable download : string -> World -> option string * World.
Variable load_local : string -> World -> option string * World.

(** The inner loop over [seg.chain]: only images with a [url] count. *)
Fixpoint images_of_chain (chain : list Item) (w : World)
    : list (option string) * World :=
  match chain with
  | [] => ([], w)
  | ImageItem url _ :: rest =>
      if truthy url then
        let (img, w1) := download (default "" url) w in
        let (imgs, w2) := images_of_chain rest w1 in
        (img :: imgs, w2)
      else images_of_chain rest w
  | OtherItem :: rest => images_of_chain rest w
  end.

(** The loop over the segments, collecting [img_bytes_list]. *)
Fixpoint collect_images (msgs : list Segment) (w : World)
    : list (option string) * World :=
  match msgs with
  | [] => ([], w)
  | SegImage url file :: rest =>
      if truthy url then
        let (img, w1) := download (default "" url) w in
        let (imgs, w2) := collect_images rest w1 in
        (img :: imgs, w2)
      else if truthy file then
        let (img, w1) := load_local (default "" file) w in
        let (imgs, w2) := collect_images rest w1 in
        (img :: imgs, w2)
      else collect_images rest w
  | SegReply chain :: rest =>
      let (found, w1) := images_of_chain chain w in
      let (imgs, w2) := collect_images rest w1 in
      ((found ++ imgs)%list, w2)
  | SegOther :: rest => collect_images rest w
  end.

(** [[img for img in img_bytes_list if img]]: [None] and empty bytes are
    dropped. *)
Definition keep_truthy (imgs : list (option string)) : list string :=
  omap (fun img => if truthy img then img else None) imgs.

Definition get_images_from_event (msgs : list Segment) (w : World)
    : list string * World :=
  let (imgs, w') := collect_images msgs w in
  (keep_truthy imgs, w').

End Images.

(** How many pictures a message offers. *)
Fixpoint offers_in_chain (chain : list Item) : nat :=
  match chain with
  | [] => 0%nat
  | ImageItem url _ :: rest =>
      ((if truthy url then 1 else 0) + offers_in_chain rest)%nat
  | OtherItem :: rest => offers_in_chain rest
  end.

Fixpoint offers (msgs : list Segment) : nat :=
  match msgs with
  | [] => 0%nat
  | SegImage url file :: rest =>
      ((if truthy url || truthy file then 1 else 0) + offers rest)%nat
  | SegReply chain :: rest => (offers_in_chain chain + offers rest)%nat
  | SegOther :: rest => offers rest
  end.

(** ** [TableGenerator.create_preset_table]: the geometry *)

Record Layout := {
  cell_w : Z;
  cell_h : Z;
  img_h : Z;
  pad : Z;
  font_sz : Z
}.

Definition layout_of (quality : string) : Layout :=
  if String.eqb quality "标准" then
    {| cell_w := 200; cell_h := 250; img_h := 200; pad := 10; font_sz := 16 |}
  else if String.eqb quality "高清" then
    {| cell_w := 300; cell_h := 380; img_h := 320; pad := 15; font_sz := 24 |}
  else
    {| cell_w := 400; cell_h := 500; img_h := 420; pad := 20; font_sz := 30 |}.

(** [rows = (len(presets) + cols - 1) // cols] *)
Definition table_rows (n cols : Z) : Z := (n + cols - 1) / cols.

Definition table_w (L : Layout) (cols : Z) : Z :=
  cols * cell_w L + (cols + 1) * pad L.

Definition table_h (L : Layout) (n cols : Z) : Z :=
  table_rows n cols * cell_h L + (table_rows n cols + 1) * pad L.

(** The corner [(x, y)] of the cell of preset number [i]. *)
Definition cell_x (L : Layout) (cols i : Z) : Z :=
  pad L + (i mod cols) * (cell_w L + pad L).

Definition cell_y (L : Layout) (cols i : Z) : Z :=
  pad L + (i / cols) * (cell_h L + pad L).

(** Where a preview of size [w] by [h] is pasted in cell [i]. *)
Definition paste_x (L : Layout) (cols i w : Z) : Z :=
  cell_x L cols i + (cell_w L - w) / 2.

Definition paste_y (L : Layout) (cols i h : Z) : Z :=
  cell_y L cols i + (img_h L - h) / 2.

(** The three layouts have positive sizes and room for the label. *)
Definition sound_layout (L : Layout) : Prop :=
  0 < pad L /\ 2 * pad L < cell_w L /\ 2 * pad L < img_h L
  /\ img_h L < cell_h L.

(** * Properties *)

(** ** The admission decision in closed form *)

Lemma ltb_cost_true (n : Z) : n < cost -> (n <? cost) = true.
Proof. intros H. now apply Z.ltb_lt. Qed.

Lemma ltb_cost_false (n : Z) : cost <= n -> (n <? cost) = false.
Proof. intros H. now apply Z.ltb_ge. Qed.

Lemma geb_cost_true (n : Z) : cost <= n -> (n >=? cost) = true.
Proof. intros H. apply Z.geb_le. lia. Qed.

Lemma geb_cost_false (n : Z) : n < cost -> (n >=? cost) = false.
Proof.
  intros H. destruct (n >=? cost) eqn:E; [|reflexivity].
  apply Z.geb_le in E. lia.
Qed.

Lemma geb_ltb_cost (n : Z) : (n >=? cost) = negb (n <? cost).
Proof.
  destruct (Z.ltb_spec n cost).
  - now rewrite geb_cost_false.
  - now rewrite geb_cost_true.
Qed.

Ltac split_on_cost :=
  repeat match goal with
  | |- context [?n <? cost] => destruct (Z.ltb_spec n cost); cbn
  | |- context [?n >=? cost] =>
      first [ rewrite (geb_cost_true n) by lia
            | rewrite (geb_cost_false n) by lia
            | destruct (Z.ltb_spec n cost);
              [ rewrite (geb_cost_false n) by lia
              | rewrite (geb_cost_true n) by lia ] ];
      cbn
  end.

(** Every path of the charging logic. The two rejections that follow a
    second look at the group balance (lines 99 and 110) do not appear: the
    veto of line 79 has already returned whenever they would. *)
Lemma charge_paths (eul egl : bool) (uid : string) (gid : option string)
    (em : EconomyManager) :
  charge eul egl uid gid em =
  match group_gated gid egl with
  | Some g =>
      if get_group_count em g <? cost
      then (Returned (false, msg_group_veto (get_group_count em g)), em)
      else if eul && (get_user_count em uid >=? cost)
      then (Fell true "user", store_user uid (get_user_count em uid - cost) em)
      else (Fell true "group", store_group g (get_group_count em g - cost) em)
  | None =>
      if eul then
        if get_user_count em uid >=? cost
        then (Fell true "user", store_user uid (get_user_count em uid - cost) em)
        else (Returned (false, msg_user_short (get_user_count em uid)), em)
      else (Fell false "", em)
  end.
Proof.
  unfold charge, get_user_count, get_group_count.
  destruct eul, (group_gated gid egl) as [g|];
    unfold bind, gets, ret, set_user_count, set_group_count, modify;
    cbn beta iota; split_on_cost; reflexivity.
Qed.

(** Every path of [check_and_deduct]. *)
Lemma check_and_deduct_paths (conf : AstrBotConfig) (user_id : string)
    (group_id : option string) (em : EconomyManager) :
  check_and_deduct conf user_id group_id em =
  let eul := conf_get (enable_user_limit conf) true in
  let egl := conf_get (enable_group_limit conf) false in
  if negb eul && negb egl then ((true, msg_unlimited), em)
  else
    match group_gated (canonical_gid group_id) egl with
    | Some g =>
        if get_group_count em g <? cost
        then ((false, msg_group_veto (get_group_count em g)), em)
        else if eul && (get_user_count em user_id >=? cost)
        then ((true, msg_success), user_debited user_id em)
        else ((true, msg_success), group_debited g em)
    | None =>
        if eul then
          if get_user_count em user_id >=? cost
          then ((true, msg_success), user_debited user_id em)
          else ((false, msg_user_short (get_user_count em user_id)), em)
        else ((true, msg_no_limit), em)
    end.
Proof.
  unfold check_and_deduct. cbv zeta.
  destruct (negb _ && negb _); [reflexivity|].
  unfold bind at 1. rewrite charge_paths.
  destruct (group_gated _ _) as [g|],
           (conf_get (enable_user_limit conf) true);
    cbn [andb]; split_on_cost; reflexivity.
Qed.

(** [admin_add_points] never raises: the key it reads back was stored
    two lines above. *)
Lemma admin_add_points_paths (target_id : string) (count : Z)
    (is_group : bool) (em : EconomyManager) :
  admin_add_points target_id count is_group em =
  if is_group
  then (Ok (msg_added_group target_id count (get_group_count em target_id + count)),
        group_credited target_id count em)
  else (Ok (msg_added_user target_id count (get_user_count em target_id + count)),
        user_credited target_id count em).
Proof.
  unfold admin_add_points, bind, gets, ret, save_user_counts, save_group_counts,
    set_user_count, set_group_count, _save_json, modify, subscript.
  destruct is_group; cbn; now rewrite lookup_insert_eq.
Qed.

(** ** Balances after a store *)

Lemma get_user_store_user (uid uid' : string) (v : Z) (em : EconomyManager) :
  get_user_count (store_user uid v em) uid'
  = if decide (uid = uid') then v else get_user_count em uid'.
Proof.
  unfold get_user_count, dict_get, store_user. cbn.
  rewrite lookup_insert. now destruct (decide (uid = uid')).
Qed.

Lemma get_group_store_group (g g' : string) (v : Z) (em : EconomyManager) :
  get_group_count (store_group g v em) g'
  = if decide (g = g') then v else get_group_count em g'.
Proof.
  unfold get_group_count, dict_get, store_group. cbn.
  rewrite lookup_insert. now destruct (decide (g = g')).
Qed.

Lemma get_user_user_debited (uid uid' : string) (em : EconomyManager) :
  get_user_count (user_debited uid em) uid'
  = if decide (uid = uid') then get_user_count em uid - cost
    else get_user_count em uid'.
Proof. apply get_user_store_user. Qed.

Lemma get_group_group_debited (g g' : string) (em : EconomyManager) :
  get_group_count (group_debited g em) g'
  = if decide (g = g') then get_group_count em g - cost
    else get_group_count em g'.
Proof. apply get_group_store_group. Qed.

Lemma get_user_user_credited (uid uid' : string) (n : Z) (em : EconomyManager) :
  get_user_count (user_credited uid n em) uid'
  = if decide (uid = uid') then get_user_count em uid + n
    else get_user_count em uid'.
Proof. apply get_user_store_user. Qed.

Lemma get_group_group_credited (g g' : string) (n : Z) (em : EconomyManager) :
  get_group_count (group_credited g n em) g'
  = if decide (g = g') then get_group_count em g + n
    else get_group_count em g'.
Proof. apply get_group_store_group. Qed.

(** ** Non-negative ledgers *)

Ltac deduct_cases conf :=
  rewrite check_and_deduct_paths; cbv zeta;
  destruct (conf_get (enable_user_limit conf) true) eqn:?,
           (conf_get (enable_group_limit conf) false) eqn:?;
  cbn [negb andb];
  try destruct (group_gated _ _) as [?g|] eqn:?;
  split_on_cost.

Lemma check_and_deduct_keeps_nonneg (conf : AstrBotConfig) (user_id : string)
    (group_id : option string) (em : EconomyManager) :
  balances_nonneg em ->
  balances_nonneg (exec (check_and_deduct conf user_id group_id) em).
Proof.
  intros [Hu Hg]. unfold exec. deduct_cases conf; cbn [snd];
    try (split; assumption);
    split; intros k;
    rewrite ?get_user_user_debited, ?get_group_group_debited;
    try apply Hu; try apply Hg;
    destruct (decide _); try apply Hu; try apply Hg; lia.
Qed.

Lemma admin_add_points_keeps_nonneg (target_id : string) (count : Z)
    (is_group : bool) (em : EconomyManager) :
  0 < count ->
  balances_nonneg em ->
  balances_nonneg (exec (admin_add_points target_id count is_group) em).
Proof.
  intros Hpos [Hu Hg]. unfold exec. rewrite admin_add_points_paths.
  destruct is_group; cbn [snd]; split; intros k;
    rewrite ?get_user_user_credited, ?get_group_group_credited;
    try apply Hu; try apply Hg;
    destruct (decide _); try apply Hu; try apply Hg.
  - specialize (Hg target_id). lia.
  - specialize (Hu target_id). lia.
Qed.

Lemma run_keeps_nonneg (ops : list Op) (em : EconomyManager) :
  balances_nonneg em ->
  Forall positive_credit ops ->
  balances_nonneg (run ops em).
Proof.
  revert em. induction ops as [|op ops IH]; intros em Hem Hops; [exact Hem|].
  inversion Hops as [|? ? Hop Hrest]; subst.
  cbn. apply IH; [|exact Hrest].
  destruct op; cbn.
  - now apply check_and_deduct_keeps_nonneg.
  - now apply admin_add_points_keeps_nonneg.
Qed.

Lemma rejected_unchanged (conf : AstrBotConfig) (user_id : string)
    (group_id : option string) (em : EconomyManager) :
  accepted (eval (check_and_deduct conf user_id group_id) em) = false ->
  exec (check_and_deduct conf user_id group_id) em = em.
Proof.
  unfold accepted, eval, exec.
  deduct_cases conf; cbn [fst snd]; intros Hrej; try discriminate Hrej;
    reflexivity.
Qed.

Lemma short_user_balance_kept (conf : AstrBotConfig) (user_id : string)
    (group_id : option string) (em : EconomyManager) (u : string) :
  get_user_count em u < cost ->
  get_user_count (exec (check_and_deduct conf user_id group_id) em) u
  = get_user_count em u.
Proof.
  intros Hlow. unfold exec.
  deduct_cases conf; cbn [snd]; try reflexivity;
    rewrite ?get_user_user_debited; try reflexivity;
    destruct (decide _); try reflexivity; subst; lia.
Qed.

Lemma short_group_balance_kept (conf : AstrBotConfig) (user_id : string)
    (group_id : option string) (em : EconomyManager) (g : string) :
  get_group_count em g < cost ->
  get_group_count (exec (check_and_deduct conf user_id group_id) em) g
  = get_group_count em g.
Proof.
  intros Hlow. unfold exec.
  deduct_cases conf; cbn [snd]; try reflexivity;
    rewrite ?get_group_group_debited; try reflexivity;
    destruct (decide _); try reflexivity; subst; lia.
Qed.

Lemma short_group_rejects (conf : AstrBotConfig) (user_id : string)
    (group_id : option string) (em : EconomyManager) (g : string) :
  group_gated (canonical_gid group_id) (conf_get (enable_group_limit conf) false)
  = Some g ->
  get_group_count em g < cost ->
  check_and_deduct conf user_id group_id em
  = ((false, msg_group_veto (get_group_count em g)), em).
Proof.
  intros Hgate Hlow. rewrite check_and_deduct_paths. cbv zeta.
  rewrite Hgate, (ltb_cost_true _ Hlow).
  destruct (conf_get (enable_group_limit conf) false) eqn:Hg.
  - now rewrite andb_false_r.
  - unfold group_gated in Hgate. now destruct (canonical_gid group_id).
Qed.

Lemma short_user_rejects (conf : AstrBotConfig) (user_id : string)
    (group_id : option string) (em : EconomyManager) :
  conf_get (enable_user_limit conf) true = true ->
  group_gated (canonical_gid group_id) (conf_get (enable_group_limit conf) false)
  = None ->
  get_user_count em user_id < cost ->
  check_and_deduct conf user_id group_id em
  = ((false, msg_user_short (get_user_count em user_id)), em).
Proof.
  intros Hu Hgate Hlow. rewrite check_and_deduct_paths. cbv zeta.
  rewrite Hu, Hgate, (geb_cost_false _ Hlow). reflexivity.
Qed.

(** C1: starting from non-negative balances, any sequence of
    [check_and_deduct] debits and [admin_add_points] credits of positive
    amounts keeps every user balance and every group balance
    non-negative. Moreover, from any state: a rejected call changes
    nothing at all; a balance below the cost is never changed by a call;
    a gating group balance below the cost rejects; and a user balance
    below the cost rejects when the user gate is on and no group gates
    the request. *)
Theorem ledgers_never_negative (em : EconomyManager) (ops : list Op) :
  balances_nonneg em ->
  Forall positive_credit ops ->
  balances_nonneg (run ops em)
  /\ (forall conf user_id group_id (s : EconomyManager),
        let r := eval (check_and_deduct conf user_id group_id) s in
        let s' := exec (check_and_deduct conf user_id group_id) s in
        (accepted r = false -> s' = s)
        /\ (forall u, get_user_count s u < cost ->
                      get_user_count s' u = get_user_count s u)
        /\ (forall g, get_group_count s g < cost ->
                      get_group_count s' g = get_group_count s g)
        /\ (forall g,
              group_gated (canonical_gid group_id)
                (conf_get (enable_group_limit conf) false) = Some g ->
              get_group_count s g < cost ->
              accepted r = false)
        /\ (conf_get (enable_user_limit conf) true = true ->
            group_gated (canonical_gid group_id)
              (conf_get (enable_group_limit conf) false) = None ->
            get_user_count s user_id < cost ->
            accepted r = false)).
Proof.
  intros Hem Hops. split; [now apply run_keeps_nonneg|].
  intros conf user_id group_id s. cbv zeta.
  split; [apply rejected_unchanged|].
  split; [intros u; apply short_user_balance_kept|].
  split; [intros g; apply short_group_balance_kept|].
  split.
  - intros g Hgate Hlow. unfold eval.
    now rewrite (short_group_rejects _ _ _ _ _ Hgate Hlow).
  - intros Hu Hgate Hlow. unfold eval.
    now rewrite (short_user_rejects _ _ _ _ Hu Hgate Hlow).
Qed.

Lemma ledgers_never_negative_witness :
  balances_nonneg (run sample_ops (manager ∅ ∅)).
Proof.
  refine (proj1 (ledgers_never_negative (manager ∅ ∅) sample_ops _ _)).
  - split; intros k; vm_compute; discriminate.
  - repeat constructor.
Defined.

Example sample_ops_balances :
  get_user_count (run sample_ops (manager ∅ ∅)) "u" = 0
  /\ get_group_count (run sample_ops (manager ∅ ∅)) "g" = 0.
Proof. split; reflexivity. Qed.

(** ** Refunds *)

Lemma group_gated_Some (gid : option string) (egl : bool) (g : string) :
  group_gated gid egl = Some g -> gid = Some g /\ egl = true.
Proof. unfold group_gated. destruct gid, egl; intros H; now inversion H. Qed.

Lemma debited_ledger_paths (conf : AstrBotConfig) (user_id : string)
    (group_id : option string) (em : EconomyManager) :
  debited_ledger conf user_id group_id em =
  let eul := conf_get (enable_user_limit conf) true in
  let egl := conf_get (enable_group_limit conf) false in
  if negb eul && negb egl then None
  else
    match group_gated (canonical_gid group_id) egl with
    | Some g =>
        if get_group_count em g <? cost then None
        else if eul && (get_user_count em user_id >=? cost)
        then Some (false, user_id)
        else Some (true, g)
    | None =>
        if eul && (get_user_count em user_id >=? cost)
        then Some (false, user_id)
        else None
    end.
Proof.
  unfold debited_ledger, eval. cbv zeta.
  destruct (negb _ && negb _); [reflexivity|].
  rewrite charge_paths.
  destruct (group_gated _ _) as [g|] eqn:Hgate,
           (conf_get (enable_user_limit conf) true);
    cbn [andb]; split_on_cost; try reflexivity;
    apply group_gated_Some in Hgate as [-> _]; reflexivity.
Qed.

Lemma dict_get_positive (d : gmap string Z) (k : string) :
  cost <= dict_get d k 0 -> d !! k = Some (dict_get d k 0).
Proof.
  unfold dict_get, cost. destruct (d !! k); cbn; [reflexivity | lia].
Qed.

Lemma credit_after_debit_user (uid : string) (em : EconomyManager) :
  cost <= get_user_count em uid ->
  user_counts (user_credited uid cost (user_debited uid em)) = user_counts em
  /\ group_counts (user_credited uid cost (user_debited uid em))
     = group_counts em.
Proof.
  intros Hge. split; [|reflexivity].
  unfold user_credited. cbn [log_write store_user user_counts].
  rewrite get_user_user_debited, decide_True by reflexivity.
  unfold user_debited. cbn [log_write store_user user_counts].
  rewrite insert_insert_eq. apply insert_id.
  replace (get_user_count em uid - cost + cost) with (get_user_count em uid)
    by lia.
  now apply dict_get_positive.
Qed.

Lemma credit_after_debit_group (g : string) (em : EconomyManager) :
  cost <= get_group_count em g ->
  user_counts (group_credited g cost (group_debited g em)) = user_counts em
  /\ group_counts (group_credited g cost (group_debited g em))
     = group_counts em.
Proof.
  intros Hge. split; [reflexivity|].
  unfold group_credited. cbn [log_write store_group group_counts].
  rewrite get_group_group_debited, decide_True by reflexivity.
  unfold group_debited. cbn [log_write store_group group_counts].
  rewrite insert_insert_eq. apply insert_id.
  replace (get_group_count em g - cost + cost) with (get_group_count em g)
    by lia.
  now apply dict_get_positive.
Qed.

Lemma credit_back_restores (conf : AstrBotConfig) (user_id : string)
    (group_id : option string) (em : EconomyManager)
    (is_group : bool) (subject : string) :
  debited_ledger conf user_id group_id em = Some (is_group, subject) ->
  accepted (eval (check_and_deduct conf user_id group_id) em) = true
  /\ (if is_group
      then get_group_count (exec (check_and_deduct conf user_id group_id) em)
             subject = get_group_count em subject - cost
      else get_user_count (exec (check_and_deduct conf user_id group_id) em)
             subject = get_user_count em subject - cost)
  /\ user_counts (exec (admin_add_points subject cost is_group)
                    (exec (check_and_deduct conf user_id group_id) em))
     = user_counts em
  /\ group_counts (exec (admin_add_points subject cost is_group)
                     (exec (check_and_deduct conf user_id group_id) em))
     = group_counts em.
Proof.
  intros Hdeb.
  rewrite debited_ledger_paths in Hdeb. cbv zeta in Hdeb.
  unfold accepted, eval, exec.
  rewrite admin_add_points_paths, check_and_deduct_paths. cbv zeta.
  destruct (conf_get (enable_user_limit conf) true),
           (conf_get (enable_group_limit conf) false);
    cbn [negb andb] in *; try discriminate Hdeb;
    destruct (group_gated _ _) as [g|];
    repeat match type of Hdeb with
    | context [?n <? cost] => destruct (Z.ltb_spec n cost)
    | context [?n >=? cost] =>
        destruct (Z.ltb_spec n cost);
        [ rewrite (geb_cost_false n) in * by lia
        | rewrite (geb_cost_true n) in * by lia ]
    end;
    try discriminate Hdeb; inversion Hdeb; subst; cbn [fst snd];
    rewrite ?get_user_user_debited, ?get_group_group_debited,
      ?decide_True by reflexivity;
    (split; [reflexivity|]); (split; [reflexivity|]);
    first [ now apply credit_after_debit_user
          | now apply credit_after_debit_group ].
Qed.

(** C6: when [check_and_deduct] admits with a debit of [cost] from a
    ledger, crediting [cost] back to the debited subject in that ledger
    right away restores both ledgers as dictionaries, so the subject's
    balance is its pre-debit value and no other balance differs. *)
Theorem refund_restores (conf : AstrBotConfig) (user_id : string)
    (group_id : option string) (em : EconomyManager)
    (is_group : bool) (subject : string) :
  debited_ledger conf user_id group_id em = Some (is_group, subject) ->
  let em1 := exec (check_and_deduct conf user_id group_id) em in
  let em2 := exec (admin_add_points subject cost is_group) em1 in
  accepted (eval (check_and_deduct conf user_id group_id) em) = true
  /\ (if is_group
      then get_group_count em1 subject = get_group_count em subject - cost
      else get_user_count em1 subject = get_user_count em subject - cost)
  /\ user_counts em2 = user_counts em
  /\ group_counts em2 = group_counts em
  /\ (forall u, get_user_count em2 u = get_user_count em u)
  /\ (forall g, get_group_count em2 g = get_group_count em g).
Proof.
  intros Hdeb. cbv zeta.
  destruct (credit_back_restores _ _ _ _ _ _ Hdeb)
    as (Hadm & Hdebit & Husers & Hgroups).
  repeat split; try assumption.
  - intros u. unfold get_user_count. now rewrite Husers.
  - intros g. unfold get_group_count. now rewrite Hgroups.
Qed.

(** The group fallback followed by a credit to the group. *)
Lemma refund_restores_witness :
  group_counts
    (exec (admin_add_points "g" cost true)
       (exec (check_and_deduct (gates (Some true) (Some true)) "u" (Some "g"))
          (manager ∅ {["g" := 5]})))
  = group_counts (manager ∅ {["g" := 5]}).
Proof.
  exact (proj1 (proj2 (proj2 (proj2
    (refund_restores (gates (Some true) (Some true)) "u" (Some "g")
       (manager ∅ {["g" := 5]}) true "g" eq_refl))))).
Defined.

Lemma debited_user_subject (conf : AstrBotConfig) (user_id : string)
    (group_id : option string) (em : EconomyManager) (subject : string) :
  debited_ledger conf user_id group_id em = Some (false, subject) ->
  subject = user_id.
Proof.
  rewrite debited_ledger_paths. cbv zeta.
  destruct (negb _ && negb _); [discriminate|].
  destruct (group_gated _ _);
    repeat match goal with
    | |- context [if ?c then _ else _] => destruct c
    end; intros Hdeb; try discriminate Hdeb; now inversion Hdeb.
Qed.

Lemma debited_group_subject (conf : AstrBotConfig) (user_id : string)
    (group_id : option string) (em : EconomyManager) (subject : string) :
  debited_ledger conf user_id group_id em = Some (true, subject) ->
  group_gated (canonical_gid group_id) (conf_get (enable_group_limit conf) false)
  = Some subject.
Proof.
  rewrite debited_ledger_paths. cbv zeta.
  destruct (negb _ && negb _); [discriminate|].
  destruct (group_gated _ _);
    repeat match goal with
    | |- context [if ?c then _ else _] => destruct c
    end; intros Hdeb; try discriminate Hdeb; now inversion Hdeb.
Qed.

Lemma exec_then_ret {A : Type} (c : M A) (em : EconomyManager) :
  exec (c ;; ret tt) em = exec c em.
Proof. unfold exec, bind, ret. now destruct (c em). Qed.

(** [refund] gives the charge back to the debited ledger when the switch
    it reads first names that ledger: the user switch is set and the user
    was debited, or the user switch is off (or missing) and the group was
    debited. *)
Lemma refund_restores_when_switches_agree (conf : AstrBotConfig)
    (user_id : string) (group_id : option string) (em : EconomyManager)
    (is_group : bool) (subject : string) :
  debited_ledger conf user_id group_id em = Some (is_group, subject) ->
  conf_truthy (enable_user_limit conf) = negb is_group ->
  let em2 := exec (refund conf user_id group_id)
               (exec (check_and_deduct conf user_id group_id) em) in
  user_counts em2 = user_counts em /\ group_counts em2 = group_counts em.
Proof.
  intros Hdeb Hsw. cbv zeta.
  destruct (credit_back_restores _ _ _ _ _ _ Hdeb) as (_ & _ & Hu & Hg).
  assert (Hsame : forall s,
    exec (refund conf user_id group_id) s
    = exec (admin_add_points subject cost is_group) s).
  { intros s. unfold refund. rewrite Hsw.
    destruct is_group; cbn [negb].
    - apply debited_group_subject in Hdeb.
      unfold conf_truthy. unfold conf_get in Hdeb. rewrite Hdeb.
      apply exec_then_ret.
    - apply debited_user_subject in Hdeb as ->. apply exec_then_ret. }
  rewrite Hsame. auto.
Qed.

(** C2 fails on the code. With both gates enabled, user balance 0 and
    group balance 5, [check_and_deduct] debits the group ledger, and the
    failure path of [on_message] credits the user ledger: the group is
    left at 4 and the user holds 1. With the switch keys missing from the
    configuration the user is debited and nothing is credited back. *)
Theorem refund_credits_wrong_ledger :
  (let conf := gates (Some true) (Some true) in
   let em := manager ∅ {["g" := 5]} in
   let em' := exec (on_message conf false "u" (Some "g") (ApiFailed "timeout")) em in
   debited_ledger conf "u" (Some "g") em = Some (true, "g")
   /\ get_group_count em "g" = 5 /\ get_group_count em' "g" = 4
   /\ get_user_count em "u" = 0 /\ get_user_count em' "u" = 1)
  /\
  (let conf := gates None None in
   let em := manager {["u" := 3]} ∅ in
   let em' := exec (on_message conf false "u" None (ApiFailed "timeout")) em in
   debited_ledger conf "u" None em = Some (false, "u")
   /\ get_user_count em "u" = 3 /\ get_user_count em' "u" = 2).
Proof. vm_compute. repeat split. Qed.

(** ** The group veto *)

(** C3: with both gates enabled and a group id present, a group balance
    below the cost rejects the request with the group-insufficient message
    and leaves the manager (both ledgers and the write log) as it was,
    whatever the user's balance is. *)
Theorem group_veto_rejects (conf : AstrBotConfig) (user_id : string)
    (group_id : option string) (g : string) (em : EconomyManager) :
  conf_get (enable_user_limit conf) true = true ->
  conf_get (enable_group_limit conf) false = true ->
  canonical_gid group_id = Some g ->
  get_group_count em g < cost ->
  check_and_deduct conf user_id group_id em
  = ((false, msg_group_veto (get_group_count em g)), em).
Proof.
  intros Hu Hg Hgid Hlow. apply short_group_rejects; [|exact Hlow].
  now rewrite Hg, Hgid.
Qed.

(** The instance named in the claim: user balance 10, group balance 0. *)
Lemma group_veto_rejects_witness :
  check_and_deduct (gates (Some true) (Some true)) "u" (Some "g")
    (manager {["u" := 10]} {["g" := 0]})
  = ((false, msg_group_veto 0), manager {["u" := 10]} {["g" := 0]}).
Proof.
  exact (group_veto_rejects (gates (Some true) (Some true)) "u" (Some "g") "g"
           (manager {["u" := 10]} {["g" := 0]})
           eq_refl eq_refl eq_refl eq_refl).
Defined.

(** ** The group fallback *)

(** C4: both gates enabled, a group id present, user balance 0 and group
    balance 5: the charging logic falls through with [source = "group"],
    the call admits, the user ledger is untouched (balance 0) and the
    group balance becomes 4. *)
Theorem group_fallback (conf : AstrBotConfig) (user_id : string)
    (group_id : option string) (g : string) (em : EconomyManager) :
  conf_get (enable_user_limit conf) true = true ->
  conf_get (enable_group_limit conf) false = true ->
  canonical_gid group_id = Some g ->
  get_user_count em user_id = 0 ->
  get_group_count em g = 5 ->
  eval (charge (conf_get (enable_user_limit conf) true)
          (conf_get (enable_group_limit conf) false)
          user_id (canonical_gid group_id)) em
  = Fell true "group"
  /\ eval (check_and_deduct conf user_id group_id) em = (true, msg_success)
  /\ user_counts (exec (check_and_deduct conf user_id group_id) em)
     = user_counts em
  /\ get_user_count (exec (check_and_deduct conf user_id group_id) em) user_id = 0
  /\ get_group_count (exec (check_and_deduct conf user_id group_id) em) g = 4.
Proof.
  intros Hu Hg Hgid Hub Hgb. unfold eval, exec.
  rewrite charge_paths, check_and_deduct_paths. cbv zeta.
  rewrite Hu, Hg, Hgid. cbn [negb andb group_gated]. rewrite Hub, Hgb.
  cbn [fst snd Z.ltb Z.geb Z.compare Pos.compare Pos.compare_cont cost andb].
  repeat split.
  - unfold get_user_count in *. cbn. exact Hub.
  - rewrite get_group_group_debited, decide_True by reflexivity.
    rewrite Hgb. reflexivity.
Qed.

Lemma group_fallback_witness :
  eval (check_and_deduct (gates (Some true) (Some true)) "u" (Some "g"))
    (manager ∅ {["g" := 5]}) = (true, msg_success)
  /\ get_group_count
       (exec (check_and_deduct (gates (Some true) (Some true)) "u" (Some "g"))
          (manager ∅ {["g" := 5]})) "g" = 4.
Proof.
  pose proof (group_fallback (gates (Some true) (Some true)) "u" (Some "g") "g"
                (manager ∅ {["g" := 5]})
                eq_refl eq_refl eq_refl eq_refl eq_refl) as H.
  split; [exact (proj1 (proj2 H)) | exact (proj2 (proj2 (proj2 (proj2 H))))].
Defined.

(** ** Missing configuration keys *)

(** C10: when the configuration has neither key, the user gate counts as
    enabled and the group gate as disabled, so a user with balance 0 is
    rejected with the user-insufficient message, with or without a group
    id, and nothing is changed. *)
Theorem default_gates (conf : AstrBotConfig) (user_id : string)
    (group_id : option string) (em : EconomyManager) :
  enable_user_limit conf = None ->
  enable_group_limit conf = None ->
  get_user_count em user_id = 0 ->
  conf_get (enable_user_limit conf) true = true
  /\ conf_get (enable_group_limit conf) false = false
  /\ check_and_deduct conf user_id group_id em
     = ((false, msg_user_short 0), em).
Proof.
  intros Hu Hg Hub.
  assert (Heul : conf_get (enable_user_limit conf) true = true)
    by now rewrite Hu.
  assert (Hegl : conf_get (enable_group_limit conf) false = false)
    by now rewrite Hg.
  repeat split; try assumption.
  rewrite <- Hub at 1. apply short_user_rejects; [exact Heul | | ].
  - rewrite Hegl. unfold group_gated. now destruct (canonical_gid group_id).
  - rewrite Hub. reflexivity.
Qed.

Lemma default_gates_witness :
  check_and_deduct (gates None None) "u" (Some "g") (manager ∅ {["g" := 7]})
  = ((false, msg_user_short 0), manager ∅ {["g" := 7]}).
Proof.
  exact (proj2 (proj2 (default_gates (gates None None) "u" (Some "g")
                         (manager ∅ {["g" := 7]}) eq_refl eq_refl eq_refl))).
Defined.

(** ** The catch-all *)

Lemma catch_all_reached_paths (conf : AstrBotConfig) (user_id : string)
    (group_id : option string) (em : EconomyManager) :
  catch_all_reached conf user_id group_id em
  = negb (conf_get (enable_user_limit conf) true)
    && conf_get (enable_group_limit conf) false
    && bool_decide (canonical_gid group_id = None).
Proof.
  unfold catch_all_reached, eval. cbv zeta. rewrite charge_paths.
  destruct (conf_get (enable_user_limit conf) true),
           (conf_get (enable_group_limit conf) false),
           (canonical_gid group_id) as [g|];
    cbn [negb andb group_gated]; split_on_cost; reflexivity.
Qed.

(** C5 as stated fails: with only the group gate enabled and no group id
    (a private chat) the catch-all is what answers. *)
Lemma catch_all_is_reachable :
  ~ (forall conf user_id group_id em,
        catch_all_reached conf user_id group_id em = false).
Proof.
  intros H.
  specialize (H (gates (Some false) (Some true)) "u" None (manager ∅ ∅)).
  vm_compute in H. discriminate H.
Qed.

Example catch_all_private_chat :
  check_and_deduct (gates (Some false) (Some true)) "u" None
    (manager {["u" := 0]} ∅)
  = ((true, msg_no_limit), manager {["u" := 0]} ∅).
Proof. reflexivity. Qed.

(** C5, amended: the catch-all is reached exactly when the user gate is
    disabled, the group gate is enabled and the request carries no group
    id; the call then admits with the not-enabled message and changes
    nothing. In every other case one of the earlier returns answers. *)
Theorem catch_all_exactly (conf : AstrBotConfig) (user_id : string)
    (group_id : option string) (em : EconomyManager) :
  (catch_all_reached conf user_id group_id em = true <->
     conf_get (enable_user_limit conf) true = false
     /\ conf_get (enable_group_limit conf) false = true
     /\ canonical_gid group_id = None)
  /\ (catch_all_reached conf user_id group_id em = true ->
      check_and_deduct conf user_id group_id em = ((true, msg_no_limit), em))
  /\ (catch_all_reached conf user_id group_id em = false ->
      eval (check_and_deduct conf user_id group_id) em <> (true, msg_no_limit)).
Proof.
  rewrite catch_all_reached_paths, check_and_deduct_paths. cbv zeta.
  unfold eval. rewrite check_and_deduct_paths. cbv zeta.
  destruct (conf_get (enable_user_limit conf) true),
           (conf_get (enable_group_limit conf) false),
           (canonical_gid group_id) as [g|];
    cbn [negb andb group_gated bool_decide decide_rel];
    split_on_cost;
    (split; [split; [intros Hr; try discriminate Hr; auto
                    | intros (H1 & H2 & H3); try discriminate; auto]
            | split; intros Hr; try discriminate Hr; auto;
              cbn [fst]; intros Heq; inversion Heq]).
Qed.

Lemma catch_all_exactly_witness :
  check_and_deduct (gates (Some false) (Some true)) "u" (Some "")
    (manager ∅ {["g" := 3]})
  = ((true, msg_no_limit), manager ∅ {["g" := 3]}).
Proof.
  exact (proj1 (proj2 (catch_all_exactly (gates (Some false) (Some true)) "u"
                  (Some "") (manager ∅ {["g" := 3]}))) eq_refl).
Defined.

(** ** Check-in rewards *)

Lemma randint_range (a b entropy : Z) :
  a <= b -> exists r, randint a b entropy = Ok r /\ a <= r <= b.
Proof.
  intros Hab. unfold randint.
  destruct (Z.ltb_spec b a) as [Hlt|_]; [lia|].
  eexists; split; [reflexivity|].
  pose proof (Z.mod_pos_bound entropy (b - a + 1)). lia.
Qed.

Lemma checkin_reward_ok (conf : AstrBotConfig) (entropy : Z) :
  exists r, checkin_reward conf entropy = Ok r.
Proof.
  unfold checkin_reward.
  destruct (conf_get (enable_random_checkin conf) false); [|eauto].
  destruct (randint_range 1 (Z.max 1 (conf_get (checkin_random_reward_max conf) 5))
              entropy) as (r & Hr & _); [lia | eauto].
Qed.

Lemma checkin_paths (conf : AstrBotConfig) (today : string) (entropy : Z)
    (user_id : string) (em : EconomyManager) :
  checkin conf today entropy user_id em =
  if negb (conf_get (enable_checkin conf) false) then (Ok msg_checkin_off, em)
  else if bool_decide (user_checkin_data em !! user_id = Some today)
  then (Ok (msg_checked_in (get_user_count em user_id)), em)
  else
    match checkin_reward conf entropy with
    | Ok reward =>
        (Ok (msg_granted reward (get_user_count em user_id + reward)),
         checked_in user_id today reward em)
    | Raise e => (Raise e, em)
    end.
Proof.
  unfold checkin, get_user_count, checked_in.
  destruct (negb _); [reflexivity|].
  unfold bind at 1, gets at 1.
  destruct (bool_decide _); [reflexivity|].
  destruct (checkin_reward conf entropy) as [reward|e]; [|reflexivity].
  unfold bind, gets, ret, save_user_counts, save_user_checkin, set_user_count,
    set_checkin, _save_json, modify, subscript.
  cbn. now rewrite lookup_insert_eq.
Qed.

(** C8: with random check-in enabled the reward is drawn without error
    and lies in [1, max(1, checkin_random_reward_max)], whatever the
    configured maximum and the draw are; with random check-in disabled it
    is the configured fixed reward; and a granted check-in (check-in
    enabled, user not yet checked in today) adds exactly that reward to
    the user's balance. *)
Theorem reward_range (conf : AstrBotConfig) (entropy : Z) :
  (conf_get (enable_random_checkin conf) false = true ->
   exists r, checkin_reward conf entropy = Ok r
     /\ 1 <= r <= Z.max 1 (conf_get (checkin_random_reward_max conf) 5))
  /\ (conf_get (enable_random_checkin conf) false = false ->
      checkin_reward conf entropy = Ok (conf_get (checkin_fixed_reward conf) 3))
  /\ (forall today user_id em,
        conf_get (enable_checkin conf) false = true ->
        user_checkin_data em !! user_id <> Some today ->
        exists r,
          checkin_reward conf entropy = Ok r
          /\ eval (checkin conf today entropy user_id) em
             = Ok (msg_granted r (get_user_count em user_id + r))
          /\ get_user_count (exec (checkin conf today entropy user_id) em) user_id
             = get_user_count em user_id + r).
Proof.
  split; [|split].
  - intros Hrand. unfold checkin_reward. rewrite Hrand.
    apply randint_range. lia.
  - intros Hfixed. unfold checkin_reward. now rewrite Hfixed.
  - intros today user_id em Hon Hnot.
    destruct (checkin_reward_ok conf entropy) as [r Hr].
    exists r. split; [exact Hr|].
    unfold eval, exec. rewrite checkin_paths, Hon, Hr. cbn [negb].
    rewrite bool_decide_eq_false_2 by exact Hnot. cbn [fst snd].
    split; [reflexivity|].
    unfold checked_in. cbv zeta. unfold get_user_count at 1. cbn.
    unfold dict_get. now rewrite lookup_insert_eq.
Qed.

(** A configured maximum of -4: the draw is 1 whatever the entropy. *)
Lemma reward_range_witness :
  exists r, checkin_reward (checkin_conf None (Some true) (Some (-4))) 12345 = Ok r
    /\ 1 <= r <= 1.
Proof.
  exact (proj1 (reward_range (checkin_conf None (Some true) (Some (-4))) 12345)
           eq_refl).
Defined.

Example reward_draws :
  checkin_reward (checkin_conf None (Some true) None) 12 = Ok 3
  /\ checkin_reward (checkin_conf None (Some true) (Some 0)) 12 = Ok 1
  /\ checkin_reward (checkin_conf (Some 8) None (Some 2)) 12 = Ok 8.
Proof. repeat split. Qed.

(** ** One reward a day *)

(** C7: with check-in enabled, a second [checkin] of the same user on the
    same date reports that the user has already checked in and leaves the
    manager exactly as the first call left it (balances, check-in records
    and write log), so at most one of the two calls grants a reward. *)
Theorem checkin_twice (conf : AstrBotConfig) (today : string)
    (entropy1 entropy2 : Z) (user_id : string) (em : EconomyManager) :
  conf_get (enable_checkin conf) false = true ->
  let em1 := exec (checkin conf today entropy1 user_id) em in
  checkin conf today entropy2 user_id em1
  = (Ok (msg_checked_in (get_user_count em1 user_id)), em1).
Proof.
  intros Hon. cbv zeta.
  assert (Hrec : user_checkin_data (exec (checkin conf today entropy1 user_id) em)
                 !! user_id = Some today).
  { unfold exec. rewrite checkin_paths, Hon. cbn [negb].
    destruct (bool_decide (user_checkin_data em !! user_id = Some today)) eqn:Hb.
    - now apply bool_decide_eq_true_1 in Hb.
    - destruct (checkin_reward_ok conf entropy1) as [r ->]. cbn.
      apply lookup_insert_eq. }
  rewrite checkin_paths, Hon. cbn [negb].
  now rewrite bool_decide_eq_true_2 by exact Hrec.
Qed.

Lemma checkin_twice_witness :
  checkin (checkin_conf None (Some true) None) "2024-05-01" 99 "u"
    (exec (checkin (checkin_conf None (Some true) None) "2024-05-01" 7 "u")
       (manager ∅ ∅))
  = (Ok (msg_checked_in
           (get_user_count
              (exec (checkin (checkin_conf None (Some true) None) "2024-05-01" 7 "u")
                 (manager ∅ ∅)) "u")),
     exec (checkin (checkin_conf None (Some true) None) "2024-05-01" 7 "u")
       (manager ∅ ∅)).
Proof.
  exact (checkin_twice (checkin_conf None (Some true) None) "2024-05-01" 7 99 "u"
           (manager ∅ ∅) eq_refl).
Defined.

Example checkin_twice_balance :
  get_user_count
    (exec (checkin (checkin_conf None (Some true) None) "2024-05-01" 99 "u")
       (exec (checkin (checkin_conf None (Some true) None) "2024-05-01" 7 "u")
          (manager ∅ ∅))) "u" = 3.
Proof. reflexivity. Qed.

(** ** Loading a store *)

Section LoadProperties.

Variable json_loads : string -> Result Json.

(** Where the existence test answers, the load returns a value whatever
    the parser does: the empty mapping when the file is absent, cannot be
    read or does not parse, and otherwise the parsed document as it is
    (any JSON value; nothing checks that it is an object). *)
Lemma load_swallows_read_and_parse_errors (f : FileState) :
  (forall e, f <> Inaccessible e) ->
  exists doc,
    _load_json json_loads f = Ok doc
    /\ match f with
       | Contents text =>
           match json_loads text with
           | Ok parsed => doc = parsed
           | Raise _ => doc = JObj []
           end
       | _ => doc = JObj []
       end.
Proof.
  intros Hstat. unfold _load_json, try_except.
  destruct f as [|e|e|text]; cbn; eauto.
  - now destruct (Hstat e).
  - destruct (json_loads text) as [parsed|e]; eauto.
Qed.

(** C9 fails on the code: the existence test of line 34 stands outside
    the [try] of lines 35-38, so when [stat] fails with an error that
    [Path.exists] re-raises (a data directory that cannot be searched),
    [_load_json] raises that error instead of returning the empty
    mapping, whatever the parser is. *)
Theorem load_raises_when_stat_fails (e : Exn) :
  _load_json json_loads (Inaccessible e) = Raise e
  /\ ~ (exists doc, _load_json json_loads (Inaccessible e) = Ok doc).
Proof.
  split; [reflexivity|]. intros [doc Hdoc]. discriminate Hdoc.
Qed.

End LoadProperties.

Example load_corrupt_file :
  _load_json toy_loads (Contents "{oops") = Ok (JObj [])
  /\ _load_json toy_loads Missing = Ok (JObj [])
  /\ _load_json toy_loads (Unreadable OSError) = Ok (JObj [])
  /\ _load_json toy_loads (Contents "[]") = Ok (JArr [])
  /\ _load_json toy_loads (Inaccessible OSError) = Raise OSError.
Proof. repeat split. Qed.

(** * Further properties of the manager *)

(** ** Closed forms of the remaining entry points *)

Lemma refund_paths (conf : AstrBotConfig) (sender_id : string)
    (group_id : option string) (em : EconomyManager) :
  exec (refund conf sender_id group_id) em = refunded conf sender_id group_id em.
Proof.
  unfold refund, refunded.
  destruct (conf_truthy (enable_user_limit conf)).
  - rewrite exec_then_ret. unfold exec. now rewrite admin_add_points_paths.
  - destruct (group_gated _ _) as [g|]; [|reflexivity].
    rewrite exec_then_ret. unfold exec. now rewrite admin_add_points_paths.
Qed.

Lemma on_message_exec (conf : AstrBotConfig) (skip_cost : bool)
    (sender_id : string) (group_id : option string) (down : Downstream)
    (em : EconomyManager) :
  exec (on_message conf skip_cost sender_id group_id down) em =
  if skip_cost then em
  else
    let em1 := exec (check_and_deduct conf sender_id group_id) em in
    if accepted (eval (check_and_deduct conf sender_id group_id) em) then
      match down with
      | ApiDone => em1
      | _ => refunded conf sender_id group_id em1
      end
    else em1.
Proof.
  unfold on_message, accepted, eval, exec.
  destruct skip_cost.
  - unfold bind, ret. cbn. destruct down; reflexivity.
  - unfold bind at 1.
    destruct (check_and_deduct conf sender_id group_id em) as [[ok msg] em1].
    cbn [fst snd negb].
    destruct ok; cbn [negb]; [|reflexivity].
    pose proof (refund_paths conf sender_id group_id em1) as Hr.
    unfold exec in Hr.
    destruct down; cbn [negb when andb]; unfold bind, ret;
      try (destruct (refund conf sender_id group_id em1); exact Hr).
    destruct (conf_truthy (enable_user_limit conf)); reflexivity.
Qed.

(** ** What a call can do to the manager *)

Lemma check_and_deduct_steps (conf : AstrBotConfig) (user_id : string)
    (group_id : option string) (em : EconomyManager) :
  exec (check_and_deduct conf user_id group_id) em = em
  \/ (cost <= get_user_count em user_id
      /\ exec (check_and_deduct conf user_id group_id) em
         = user_debited user_id em)
  \/ (exists g, cost <= get_group_count em g
      /\ exec (check_and_deduct conf user_id group_id) em = group_debited g em).
Proof.
  unfold exec. deduct_cases conf; cbn [snd]; eauto.
Qed.

Lemma checkin_steps (conf : AstrBotConfig) (today : string) (entropy : Z)
    (user_id : string) (em : EconomyManager) :
  exec (checkin conf today entropy user_id) em = em
  \/ (exists r, checkin_reward conf entropy = Ok r
      /\ exec (checkin conf today entropy user_id) em
         = checked_in user_id today r em).
Proof.
  unfold exec. rewrite checkin_paths.
  destruct (negb _); [now left|].
  destruct (bool_decide _); [now left|].
  destruct (checkin_reward conf entropy) as [r|e]; [right; eauto | now left].
Qed.

Lemma refunded_steps (conf : AstrBotConfig) (sender_id : string)
    (group_id : option string) (em : EconomyManager) :
  refunded conf sender_id group_id em = em
  \/ refunded conf sender_id group_id em = user_credited sender_id 1 em
  \/ (exists g, refunded conf sender_id group_id em = group_credited g 1 em).
Proof.
  unfold refunded. destruct (conf_truthy _); [auto|].
  destruct (group_gated _ _); eauto.
Qed.

(** ** Non-negative balances over every entry point *)

Lemma user_credited_keeps_nonneg (uid : string) (n : Z) (em : EconomyManager) :
  0 <= n -> balances_nonneg em -> balances_nonneg (user_credited uid n em).
Proof.
  intros Hn [Hu Hg]. split; intros k; [|apply Hg].
  rewrite get_user_user_credited. destruct (decide _); [|apply Hu].
  specialize (Hu uid). lia.
Qed.

Lemma group_credited_keeps_nonneg (g : string) (n : Z) (em : EconomyManager) :
  0 <= n -> balances_nonneg em -> balances_nonneg (group_credited g n em).
Proof.
  intros Hn [Hu Hg]. split; intros k; [apply Hu|].
  rewrite get_group_group_credited. destruct (decide _); [|apply Hg].
  specialize (Hg g). lia.
Qed.

Lemma get_user_checked_in (uid today : string) (r : Z) (em : EconomyManager)
    (u : string) :
  get_user_count (checked_in uid today r em) u
  = if decide (uid = u) then get_user_count em uid + r
    else get_user_count em u.
Proof.
  unfold checked_in. cbv zeta.
  change (get_user_count
            (store_user uid (get_user_count em uid + r) em) u = 
          if decide (uid = u) then get_user_count em uid + r
          else get_user_count em u).
  apply get_user_store_user.
Qed.

Lemma checked_in_keeps_nonneg (uid today : string) (r : Z) (em : EconomyManager) :
  0 <= r -> balances_nonneg em -> balances_nonneg (checked_in uid today r em).
Proof.
  intros Hr [Hu Hg]. split; intros k; [|apply Hg].
  rewrite get_user_checked_in. destruct (decide _); [|apply Hu].
  specialize (Hu uid). lia.
Qed.

Lemma refunded_keeps_nonneg (conf : AstrBotConfig) (sender_id : string)
    (group_id : option string) (em : EconomyManager) :
  balances_nonneg em -> balances_nonneg (refunded conf sender_id group_id em).
Proof.
  intros Hem.
  destruct (refunded_steps conf sender_id group_id em) as [-> | [-> | [g ->]]].
  - exact Hem.
  - apply user_credited_keeps_nonneg; [lia | exact Hem].
  - apply group_credited_keeps_nonneg; [lia | exact Hem].
Qed.

Lemma checkin_reward_nonneg (conf : AstrBotConfig) (entropy r : Z) :
  (conf_get (enable_random_checkin conf) false = false ->
   0 <= conf_get (checkin_fixed_reward conf) 3) ->
  checkin_reward conf entropy = Ok r -> 0 <= r.
Proof.
  intros Hfixed Hr. unfold checkin_reward in Hr.
  destruct (conf_get (enable_random_checkin conf) false).
  - destruct (randint_range 1 (Z.max 1 (conf_get (checkin_random_reward_max conf) 5))
                entropy) as (r' & Hr' & Hrange); [lia|].
    rewrite Hr' in Hr. inversion Hr; subst. lia.
  - inversion Hr; subst. now apply Hfixed.
Qed.

Lemma handle_keeps_nonneg (ev : Event) (em : EconomyManager) :
  benign ev -> balances_nonneg em -> balances_nonneg (handle em ev).
Proof.
  intros Hev Hem. destruct ev; cbn [handle benign] in *.
  - now apply check_and_deduct_keeps_nonneg.
  - unfold exec. rewrite admin_add_points_paths.
    destruct is_group; cbn [snd].
    + now apply group_credited_keeps_nonneg.
    + now apply user_credited_keeps_nonneg.
  - destruct (checkin_steps conf today entropy user_id em) as [-> | (r & Hr & ->)];
      [exact Hem|].
    apply checked_in_keeps_nonneg; [|exact Hem].
    now apply (checkin_reward_nonneg conf entropy).
  - rewrite on_message_exec. destruct skip_cost; [exact Hem|]. cbv zeta.
    pose proof (check_and_deduct_keeps_nonneg conf sender_id group_id em Hem).
    destruct (accepted _); [|assumption].
    destruct down; try assumption; now apply refunded_keeps_nonneg.
Qed.

(** X1: starting from non-negative balances, every sequence of calls the
    plugin can make on the manager (charging, administrative credits of a
    non-negative count, check-ins whose fixed reward is not negative, and
    whole requests with their refund on failure) keeps every user and
    group balance non-negative. *)
Theorem every_entry_point_keeps_nonneg (evs : list Event) (em : EconomyManager) :
  balances_nonneg em ->
  Forall benign evs ->
  balances_nonneg (replay evs em).
Proof.
  revert em. induction evs as [|ev evs IH]; intros em Hem Hevs; [exact Hem|].
  inversion Hevs as [|? ? Hev Hrest]; subst.
  cbn. apply IH; [|exact Hrest]. now apply handle_keeps_nonneg.
Qed.

Lemma every_entry_point_keeps_nonneg_witness :
  balances_nonneg (replay sample_events (manager ∅ ∅)).
Proof.
  refine (every_entry_point_keeps_nonneg sample_events (manager ∅ ∅) _ _).
  - split; intros k; vm_compute; discriminate.
  - repeat constructor; vm_compute; discriminate.
Defined.

Example sample_events_balances :
  get_user_count (replay sample_events (manager ∅ ∅)) "u" = 3
  /\ get_group_count (replay sample_events (manager ∅ ∅)) "g" = 2.
Proof. split; reflexivity. Qed.

(** ** Write-through *)

Lemma flushed_user_write (loaded em : EconomyManager) (uid : string) (v : Z) :
  flushed loaded em ->
  flushed loaded
    (log_write user_counts_file
       (DumpCounts (user_counts (store_user uid v em))) (store_user uid v em)).
Proof.
  intros H path. destruct path; unfold on_disk; cbn.
  - reflexivity.
  - apply (H group_counts_file).
  - apply (H user_checkin_file).
Qed.

Lemma flushed_group_write (loaded em : EconomyManager) (g : string) (v : Z) :
  flushed loaded em ->
  flushed loaded
    (log_write group_counts_file
       (DumpCounts (group_counts (store_group g v em))) (store_group g v em)).
Proof.
  intros H path. destruct path; unfold on_disk; cbn.
  - apply (H user_counts_file).
  - reflexivity.
  - apply (H user_checkin_file).
Qed.

Lemma flushed_checked_in (loaded em : EconomyManager) (uid today : string)
    (r : Z) :
  flushed loaded em -> flushed loaded (checked_in uid today r em).
Proof.
  intros H path. destruct path; unfold on_disk, checked_in; cbn.
  - reflexivity.
  - apply (H group_counts_file).
  - reflexivity.
Qed.

Lemma flushed_refunded (loaded em : EconomyManager) (conf : AstrBotConfig)
    (sender_id : string) (group_id : option string) :
  flushed loaded em -> flushed loaded (refunded conf sender_id group_id em).
Proof.
  intros H.
  destruct (refunded_steps conf sender_id group_id em) as [-> | [-> | [g ->]]].
  - exact H.
  - now apply flushed_user_write.
  - now apply flushed_group_write.
Qed.

Lemma flushed_check_and_deduct (loaded em : EconomyManager)
    (conf : AstrBotConfig) (user_id : string) (group_id : option string) :
  flushed loaded em ->
  flushed loaded (exec (check_and_deduct conf user_id group_id) em).
Proof.
  intros H.
  destruct (check_and_deduct_steps conf user_id group_id em)
    as [-> | [[_ ->] | (g & _ & ->)]].
  - exact H.
  - now apply flushed_user_write.
  - now apply flushed_group_write.
Qed.

Lemma flushed_handle (loaded em : EconomyManager) (ev : Event) :
  flushed loaded em -> flushed loaded (handle em ev).
Proof.
  intros H. destruct ev; cbn [handle].
  - now apply flushed_check_and_deduct.
  - unfold exec. rewrite admin_add_points_paths.
    destruct is_group; cbn [snd].
    + now apply flushed_group_write.
    + now apply flushed_user_write.
  - destruct (checkin_steps conf today entropy user_id em) as [-> | (r & _ & ->)];
      [exact H | now apply flushed_checked_in].
  - rewrite on_message_exec. destruct skip_cost; [exact H|]. cbv zeta.
    pose proof (flushed_check_and_deduct loaded em conf sender_id group_id H).
    destruct (accepted _); [|assumption].
    destruct down; try assumption; now apply flushed_refunded.
Qed.

(** X2: the manager is write-through. From a freshly loaded manager (no
    write issued yet), after any sequence of calls the newest write issued
    to each of the three files is the dictionary now held in memory; a
    file that was never written still belongs to a dictionary that never
    changed. No call leaves a change of a dictionary unsaved. *)
Theorem write_through (evs : list Event) (loaded : EconomyManager) :
  written loaded = [] ->
  forall path,
    on_disk loaded (replay evs loaded) path
    = in_memory path (replay evs loaded).
Proof.
  intros Hfresh.
  assert (Hstart : flushed loaded loaded).
  { intros path. unfold on_disk. now rewrite Hfresh. }
  assert (Hrun : forall em, flushed loaded em -> flushed loaded (replay evs em)).
  { induction evs as [|ev evs IH]; intros em Hem; [exact Hem|].
    cbn. apply IH. now apply flushed_handle. }
  exact (Hrun loaded Hstart).
Qed.

Lemma write_through_witness :
  on_disk (manager ∅ ∅) (replay sample_events (manager ∅ ∅)) user_counts_file
  = in_memory user_counts_file (replay sample_events (manager ∅ ∅)).
Proof.
  exact (write_through sample_events (manager ∅ ∅) eq_refl user_counts_file).
Defined.

(** ** Who is rejected, and who pays *)

(** X3: [check_and_deduct] rejects exactly in two situations: a group
    gates the request and its balance is below the cost, or no group gates
    the request, the user gate is on and the user's balance is below the
    cost. The message is then the group message of line 81 or the user
    message of line 101; the rejections of lines 99 and 110 never answer. *)
Theorem rejection_exactly (conf : AstrBotConfig) (user_id : string)
    (group_id : option string) (em : EconomyManager) :
  let eul := conf_get (enable_user_limit conf) true in
  let gate := group_gated (canonical_gid group_id)
                (conf_get (enable_group_limit conf) false) in
  (accepted (eval (check_and_deduct conf user_id group_id) em) = false <->
     (exists g, gate = Some g /\ get_group_count em g < cost)
     \/ (eul = true /\ gate = None /\ get_user_count em user_id < cost))
  /\ (forall msg,
        eval (check_and_deduct conf user_id group_id) em = (false, msg) ->
        (exists g, gate = Some g /\ msg = msg_group_veto (get_group_count em g))
        \/ (gate = None /\ msg = msg_user_short (get_user_count em user_id))).
Proof.
  cbv zeta. unfold accepted, eval.
  rewrite check_and_deduct_paths. cbv zeta.
  destruct (conf_get (enable_user_limit conf) true),
           (conf_get (enable_group_limit conf) false);
    cbn [negb andb];
    destruct (canonical_gid group_id) as [g0|]; cbn [group_gated];
    split_on_cost; cbn [fst];
    (split; [split; [intros Hrej; try discriminate Hrej
                    | intros [(g' & Hg' & Hlow) | (Hu & Hg' & Hlow)];
                      try discriminate; try (inversion Hg'; subst); try lia;
                      try reflexivity]
            | intros msg Hmsg; inversion Hmsg; subst ]);
    eauto 6.
Qed.

Lemma rejection_exactly_witness :
  accepted (eval (check_and_deduct (gates (Some true) None) "u" (Some "g"))
              (manager ∅ {["g" := 9]})) = false.
Proof.
  apply (proj1 (rejection_exactly (gates (Some true) None) "u" (Some "g")
                  (manager ∅ {["g" := 9]}))).
  right. repeat split.
Defined.

(** X4: which ledger pays. The user's ledger is debited exactly when the
    user gate is on, the user holds at least the cost and no gating group
    vetoes; a gating group [g] is debited exactly when it holds at least
    the cost and the user gate is off or the user is short. A user with
    enough balance therefore always pays before the group does. *)
Theorem who_pays (conf : AstrBotConfig) (user_id : string)
    (group_id : option string) (em : EconomyManager) :
  let eul := conf_get (enable_user_limit conf) true in
  let gate := group_gated (canonical_gid group_id)
                (conf_get (enable_group_limit conf) false) in
  (debited_ledger conf user_id group_id em = Some (false, user_id) <->
     eul = true /\ cost <= get_user_count em user_id
     /\ (forall g, gate = Some g -> cost <= get_group_count em g))
  /\ (forall g,
        debited_ledger conf user_id group_id em = Some (true, g) <->
        gate = Some g /\ cost <= get_group_count em g
        /\ (eul = false \/ get_user_count em user_id < cost)).
Proof.
  cbv zeta. rewrite debited_ledger_paths. cbv zeta.
  destruct (conf_get (enable_user_limit conf) true),
           (conf_get (enable_group_limit conf) false);
    cbn [negb andb];
    destruct (canonical_gid group_id) as [g0|]; cbn [group_gated];
    split_on_cost;
    (split; [split; [intros Hd; try discriminate Hd; repeat split; try lia;
                     intros g' Hg'; inversion Hg'; subst; lia
                    | intros (Hu & Hlow & Hg'); try discriminate Hu;
                      try reflexivity; try lia;
                      try (specialize (Hg' _ eq_refl); lia)]
            | intros g'; split;
              [intros Hd; try discriminate Hd; inversion Hd; subst;
               repeat split; try lia; auto
              | intros (Hg' & Hlow & Hor); try discriminate Hg';
                inversion Hg'; subst; try reflexivity; try lia;
                destruct Hor as [Hor|Hor]; try discriminate Hor; lia]]).
Qed.

Lemma who_pays_witness :
  debited_ledger (gates (Some true) (Some true)) "u" (Some "g")
    (manager {["u" := 1]} {["g" := 1]}) = Some (false, "u").
Proof.
  apply (proj1 (who_pays (gates (Some true) (Some true)) "u" (Some "g")
                  (manager {["u" := 1]} {["g" := 1]}))).
  split; [reflexivity|]. split; [vm_compute; discriminate|].
  intros g Hg. injection Hg as <-. vm_compute. discriminate.
Defined.

(** X5: a charge is exact. When no ledger is debited the call returns the
    manager it was given; otherwise the balance of the debited subject
    drops by exactly the cost, no other balance in either ledger moves,
    and the check-in records are never touched. *)
Theorem charge_is_exact (conf : AstrBotConfig) (user_id : string)
    (group_id : option string) (em : EconomyManager) :
  let em' := exec (check_and_deduct conf user_id group_id) em in
  user_checkin_data em' = user_checkin_data em
  /\ match debited_ledger conf user_id group_id em with
     | None => em' = em
     | Some (false, u) =>
         get_user_count em' u = get_user_count em u - cost
         /\ (forall u', u' <> u -> get_user_count em' u' = get_user_count em u')
         /\ group_counts em' = group_counts em
     | Some (true, g) =>
         get_group_count em' g = get_group_count em g - cost
         /\ (forall g', g' <> g -> get_group_count em' g' = get_group_count em g')
         /\ user_counts em' = user_counts em
     end.
Proof.
  cbv zeta. unfold exec.
  rewrite debited_ledger_paths, check_and_deduct_paths. cbv zeta.
  destruct (conf_get (enable_user_limit conf) true),
           (conf_get (enable_group_limit conf) false);
    cbn [negb andb];
    try destruct (group_gated _ _) as [g0|];
    split_on_cost; cbn [snd];
    (split; [reflexivity|]); try reflexivity;
    rewrite ?get_user_user_debited, ?get_group_group_debited,
      ?decide_True by reflexivity;
    (split; [reflexivity|]); (split; [|reflexivity]);
    intros k Hk;
    rewrite ?get_user_user_debited, ?get_group_group_debited;
    now rewrite decide_False by congruence.
Qed.

Lemma charge_is_exact_witness :
  get_user_count
    (exec (check_and_deduct (gates (Some true) (Some true)) "u" (Some "g"))
       (manager {["u" := 2; "v" := 7]} {["g" := 1]})) "v"
  = get_user_count (manager {["u" := 2; "v" := 7]} {["g" := 1]}) "v".
Proof.
  pose proof (charge_is_exact (gates (Some true) (Some true)) "u" (Some "g")
                (manager {["u" := 2; "v" := 7]} {["g" := 1]})) as H.
  cbv zeta in H. destruct H as [_ H].
  assert (Hd : debited_ledger (gates (Some true) (Some true)) "u" (Some "g")
                 (manager {["u" := 2; "v" := 7]} {["g" := 1]})
               = Some (false, "u")) by reflexivity.
  rewrite Hd in H. destruct H as (_ & H & _).
  apply H. discriminate.
Defined.

(** ** More on check-ins *)

(** X6: a check-in concerns one user only. Whatever it answers, the group
    ledger, the balances of all other users and the check-in dates of all
    other users are as before; and with check-in disabled the whole
    manager is untouched and the answer is the disabled message. *)
Theorem checkin_frame (conf : AstrBotConfig) (today : string) (entropy : Z)
    (user_id : string) (em : EconomyManager) :
  let em' := exec (checkin conf today entropy user_id) em in
  group_counts em' = group_counts em
  /\ (forall u, u <> user_id -> get_user_count em' u = get_user_count em u)
  /\ (forall u, u <> user_id ->
        user_checkin_data em' !! u = user_checkin_data em !! u)
  /\ (conf_get (enable_checkin conf) false = false ->
      checkin conf today entropy user_id em = (Ok msg_checkin_off, em)).
Proof.
  cbv zeta. split; [|split; [|split]].
  - destruct (checkin_steps conf today entropy user_id em) as [-> | (r & _ & ->)];
      reflexivity.
  - intros u Hu.
    destruct (checkin_steps conf today entropy user_id em) as [-> | (r & _ & ->)];
      [reflexivity|].
    rewrite get_user_checked_in. now rewrite decide_False by congruence.
  - intros u Hu.
    destruct (checkin_steps conf today entropy user_id em) as [-> | (r & _ & ->)];
      [reflexivity|].
    unfold checked_in. cbn. now rewrite lookup_insert_ne by congruence.
  - intros Hoff. now rewrite checkin_paths, Hoff.
Qed.

Lemma checkin_frame_witness :
  checkin (gates None None) "2024-05-01" 5 "u" (manager {["u" := 1]} ∅)
  = (Ok msg_checkin_off, manager {["u" := 1]} ∅).
Proof.
  exact (proj2 (proj2 (proj2
    (checkin_frame (gates None None) "2024-05-01" 5 "u"
       (manager {["u" := 1]} ∅)))) eq_refl).
Defined.

Lemma checkin_records_today (conf : AstrBotConfig) (today : string)
    (entropy : Z) (user_id : string) (em : EconomyManager) :
  conf_get (enable_checkin conf) false = true ->
  user_checkin_data (exec (checkin conf today entropy user_id) em) !! user_id
  = Some today.
Proof.
  intros Hon. unfold exec. rewrite checkin_paths, Hon. cbn [negb].
  destruct (bool_decide (user_checkin_data em !! user_id = Some today)) eqn:Hb.
  - now apply bool_decide_eq_true_1 in Hb.
  - destruct (checkin_reward_ok conf entropy) as [r ->]. cbn.
    apply lookup_insert_eq.
Qed.

(** X7: only the date of the last check-in is remembered, and it is
    compared for equality. After a check-in on one date, a check-in of the
    same user on any other date (later or earlier) grants a reward: the
    balance grows by the computed reward and the remembered date becomes
    the new one. *)
Theorem checkin_other_date_grants (conf : AstrBotConfig)
    (day1 day2 : string) (entropy1 entropy2 : Z) (user_id : string)
    (em : EconomyManager) :
  conf_get (enable_checkin conf) false = true ->
  day2 <> day1 ->
  let em1 := exec (checkin conf day1 entropy1 user_id) em in
  let em2 := exec (checkin conf day2 entropy2 user_id) em1 in
  exists r,
    checkin_reward conf entropy2 = Ok r
    /\ eval (checkin conf day2 entropy2 user_id) em1
       = Ok (msg_granted r (get_user_count em1 user_id + r))
    /\ get_user_count em2 user_id = get_user_count em1 user_id + r
    /\ user_checkin_data em2 !! user_id = Some day2.
Proof.
  intros Hon Hne. cbv zeta.
  pose proof (checkin_records_today conf day1 entropy1 user_id em Hon) as Hrec.
  destruct (checkin_reward_ok conf entropy2) as [r Hr].
  exists r. split; [exact Hr|].
  split; [|split].
  - unfold eval. rewrite checkin_paths, Hon, Hr. cbn [negb].
    rewrite bool_decide_eq_false_2; [reflexivity|].
    rewrite Hrec. congruence.
  - unfold exec at 1. rewrite checkin_paths, Hon, Hr. cbn [negb].
    rewrite bool_decide_eq_false_2 by (rewrite Hrec; congruence).
    cbn [snd]. rewrite get_user_checked_in.
    now rewrite decide_True by reflexivity.
  - now apply checkin_records_today.
Qed.

Lemma checkin_other_date_grants_witness :
  exists r,
    checkin_reward (checkin_conf (Some 4) None None) 0 = Ok r
    /\ get_user_count
         (exec (checkin (checkin_conf (Some 4) None None) "2024-04-30" 0 "u")
            (exec (checkin (checkin_conf (Some 4) None None) "2024-05-01" 0 "u")
               (manager ∅ ∅))) "u"
       = get_user_count
           (exec (checkin (checkin_conf (Some 4) None None) "2024-05-01" 0 "u")
              (manager ∅ ∅)) "u" + r.
Proof.
  destruct (checkin_other_date_grants (checkin_conf (Some 4) None None)
              "2024-05-01" "2024-04-30" 0 0 "u" (manager ∅ ∅) eq_refl)
    as (r & Hr & _ & Hbal & _).
  - discriminate.
  - exists r. split; [exact Hr | exact Hbal].
Defined.

(** ** Credits compose *)

Lemma user_credited_twice (uid : string) (a b : Z) (em : EconomyManager) :
  user_counts (user_credited uid b (user_credited uid a em))
  = user_counts (user_credited uid (a + b) em).
Proof.
  unfold user_credited at 1. cbn [log_write store_user user_counts].
  rewrite get_user_user_credited, decide_True by reflexivity.
  unfold user_credited. cbn [log_write store_user user_counts].
  rewrite insert_insert_eq. f_equal. lia.
Qed.

Lemma group_credited_twice (g : string) (a b : Z) (em : EconomyManager) :
  group_counts (group_credited g b (group_credited g a em))
  = group_counts (group_credited g (a + b) em).
Proof.
  unfold group_credited at 1. cbn [log_write store_group group_counts].
  rewrite get_group_group_credited, decide_True by reflexivity.
  unfold group_credited. cbn [log_write store_group group_counts].
  rewrite insert_insert_eq. f_equal. lia.
Qed.

(** X8: administrative credits add up and do not check the sign of the
    count. Two credits of [a] and [b] to the same subject leave both
    ledgers as one credit of [a + b] does; the target's balance after a
    credit is its balance before plus the count, so a negative count
    lowers it, below zero if it is large enough; the other ledger is not
    touched. *)
Theorem credits_add_up (target_id : string) (a b : Z) (is_group : bool)
    (em : EconomyManager) :
  let em1 := exec (admin_add_points target_id a is_group) em in
  let em2 := exec (admin_add_points target_id b is_group) em1 in
  let once := exec (admin_add_points target_id (a + b) is_group) em in
  user_counts em2 = user_counts once
  /\ group_counts em2 = group_counts once
  /\ (if is_group
      then get_group_count em1 target_id = get_group_count em target_id + a
           /\ user_counts em1 = user_counts em
      else get_user_count em1 target_id = get_user_count em target_id + a
           /\ group_counts em1 = group_counts em).
Proof.
  cbv zeta. unfold exec. rewrite !admin_add_points_paths.
  destruct is_group; cbn [snd].
  - split; [reflexivity|]. split; [apply group_credited_twice|].
    split; [|reflexivity].
    rewrite get_group_group_credited. now rewrite decide_True by reflexivity.
  - split; [apply user_credited_twice|]. split; [reflexivity|].
    split; [|reflexivity].
    rewrite get_user_user_credited. now rewrite decide_True by reflexivity.
Qed.

Example negative_credit_goes_below_zero :
  get_user_count (exec (admin_add_points "u" (-5) false) (manager {["u" := 2]} ∅)) "u"
  = -3.
Proof. reflexivity. Qed.

(** ** Whole requests *)

Lemma on_message_eval (conf : AstrBotConfig) (skip_cost : bool)
    (sender_id : string) (group_id : option string) (down : Downstream)
    (em : EconomyManager) :
  eval (on_message conf skip_cost sender_id group_id down) em =
  let r := eval (check_and_deduct conf sender_id group_id) em in
  let em1 := exec (check_and_deduct conf sender_id group_id) em in
  if negb skip_cost && negb (accepted r) then
    Declined (if conf_get (enable_checkin conf) false
              then snd r +:+ checkin_hint else snd r)
  else
    match down with
    | NoImage => AskImage
    | ApiFailed err => Failed err
    | ApiDone =>
        if negb skip_cost && conf_truthy (enable_user_limit conf)
        then Drawn (Some (get_user_count em1 sender_id))
        else Drawn None
    end.
Proof.
  unfold on_message, accepted, eval, exec. cbv zeta.
  destruct skip_cost; cbn [negb andb].
  - unfold bind, ret. cbn. destruct down; reflexivity.
  - unfold bind at 1.
    destruct (check_and_deduct conf sender_id group_id em) as [[ok msg] em1].
    cbn [fst snd negb].
    destruct ok; cbn [negb]; [|reflexivity].
    destruct down; cbn [negb when andb]; unfold bind, ret;
      try (destruct (refund conf sender_id group_id em1); reflexivity).
    destruct (conf_truthy (enable_user_limit conf)); reflexivity.
Qed.

(** X9: an administrator's request is free. With [skip_cost] set, the
    manager is returned as it was for every downstream outcome (no debit,
    no refund, no write), and the reply is never a refusal. *)
Theorem admin_request_is_free (conf : AstrBotConfig) (sender_id : string)
    (group_id : option string) (down : Downstream) (em : EconomyManager) :
  on_message conf true sender_id group_id down em
  = (match down with
     | NoImage => AskImage
     | ApiFailed err => Failed err
     | ApiDone => Drawn None
     end, em).
Proof.
  pose proof (on_message_exec conf true sender_id group_id down em) as He.
  pose proof (on_message_eval conf true sender_id group_id down em) as Hv.
  unfold exec, eval in *. cbv zeta in Hv. cbn [negb andb] in *.
  destruct (on_message conf true sender_id group_id down em) as [reply em'].
  cbn [fst snd] in *. subst. reflexivity.
Qed.

(** X10: a refused request costs nothing and never reaches the image
    generation: when [check_and_deduct] rejects a non-administrator, the
    reply is its message (followed by the check-in hint when check-in is
    enabled) and the manager is unchanged, whatever would have happened
    downstream. *)
Theorem refused_request (conf : AstrBotConfig) (sender_id : string)
    (group_id : option string) (down : Downstream) (em : EconomyManager)
    (msg : string) :
  eval (check_and_deduct conf sender_id group_id) em = (false, msg) ->
  on_message conf false sender_id group_id down em
  = (Declined (if conf_get (enable_checkin conf) false
               then msg +:+ checkin_hint else msg), em).
Proof.
  intros Hrej.
  pose proof (on_message_exec conf false sender_id group_id down em) as He.
  pose proof (on_message_eval conf false sender_id group_id down em) as Hv.
  cbv zeta in He, Hv. rewrite Hrej in He, Hv.
  cbn [accepted fst snd negb andb] in He, Hv.
  rewrite rejected_unchanged in He by now rewrite Hrej.
  unfold exec, eval in He, Hv.
  destruct (on_message conf false sender_id group_id down em) as [reply em'].
  cbn [fst snd] in *. now subst.
Qed.

Lemma refused_request_witness :
  on_message (gates (Some true) (Some true)) false "u" (Some "g")
    ApiDone (manager {["u" := 10]} ∅)
  = (Declined (msg_group_veto 0), manager {["u" := 10]} ∅).
Proof.
  exact (refused_request (gates (Some true) (Some true)) "u" (Some "g")
           ApiDone (manager {["u" := 10]} ∅) (msg_group_veto 0) eq_refl).
Defined.

Lemma get_group_user_debited (uid g : string) (em : EconomyManager) :
  get_group_count (user_debited uid em) g = get_group_count em g.
Proof. reflexivity. Qed.

Lemma get_user_group_debited (g uid : string) (em : EconomyManager) :
  get_user_count (group_debited g em) uid = get_user_count em uid.
Proof. reflexivity. Qed.

Lemma get_group_user_credited (uid g : string) (n : Z) (em : EconomyManager) :
  get_group_count (user_credited uid n em) g = get_group_count em g.
Proof. reflexivity. Qed.

Lemma get_user_group_credited (g uid : string) (n : Z) (em : EconomyManager) :
  get_user_count (group_credited g n em) uid = get_user_count em uid.
Proof. reflexivity. Qed.

Ltac read_balances :=
  repeat first
    [ rewrite get_user_user_credited | rewrite get_group_group_credited
    | rewrite get_user_user_debited | rewrite get_group_group_debited
    | rewrite get_group_user_debited | rewrite get_user_group_debited
    | rewrite get_group_user_credited | rewrite get_user_group_credited ];
  repeat match goal with
  | |- context [decide (?a = ?b)] => destruct (decide (a = b)); subst
  end;
  unfold cost in *; try congruence; try lia.

(** X11: a failed request never costs or mints credit in total when the
    configuration holds the [enable_user_limit] key. For a
    non-administrator whose request fails downstream (no picture, or the
    generation failed), the sender's balance plus the balance of the
    request's group is what it was before the request, and every other
    balance is untouched, even when the refund goes to a different ledger
    than the debit. *)
Theorem failed_request_conserves_total (conf : AstrBotConfig)
    (sender_id : string) (group_id : option string) (down : Downstream)
    (em : EconomyManager) :
  enable_user_limit conf <> None ->
  down <> ApiDone ->
  let em' := exec (on_message conf false sender_id group_id down) em in
  (forall u, u <> sender_id -> get_user_count em' u = get_user_count em u)
  /\ match canonical_gid group_id with
     | Some g =>
         get_user_count em' sender_id + get_group_count em' g
         = get_user_count em sender_id + get_group_count em g
         /\ (forall g', g' <> g -> get_group_count em' g' = get_group_count em g')
     | None =>
         get_user_count em' sender_id = get_user_count em sender_id
         /\ (forall g', get_group_count em' g' = get_group_count em g')
     end.
Proof.
  intros Hkey Hdown. cbv zeta.
  rewrite on_message_exec. cbv zeta. unfold accepted, eval, exec.
  rewrite check_and_deduct_paths. cbv zeta.
  unfold refunded, conf_truthy, conf_get.
  destruct (enable_user_limit conf) as [[|]|]; [| |congruence];
    destruct (enable_group_limit conf) as [[|]|];
    destruct (canonical_gid group_id) as [g|];
    cbn [default negb andb group_gated];
    split_on_cost; cbn [fst snd];
    destruct down; try congruence;
    (split; [intros u Hu|split; [|intros g' Hg' || intros g']]);
    read_balances.
Qed.

Lemma failed_request_conserves_total_witness :
  get_user_count
    (exec (on_message (gates (Some true) (Some true)) false "u" (Some "g")
             (ApiFailed "timeout")) (manager ∅ {["g" := 5]})) "u"
  + get_group_count
      (exec (on_message (gates (Some true) (Some true)) false "u" (Some "g")
               (ApiFailed "timeout")) (manager ∅ {["g" := 5]})) "g"
  = get_user_count (manager ∅ {["g" := 5]}) "u"
    + get_group_count (manager ∅ {["g" := 5]}) "g".
Proof.
  refine (proj1 (proj2
    (failed_request_conserves_total (gates (Some true) (Some true)) "u"
       (Some "g") (ApiFailed "timeout") (manager ∅ {["g" := 5]}) _ _)));
    discriminate.
Defined.

(** * Properties of the preset store *)

(** ** The order of the keys *)

Lemma ascii_compare_refl (a : Ascii.ascii) : Ascii.compare a a = Eq.
Proof. unfold Ascii.compare. apply N.compare_refl. Qed.

Lemma string_compare_refl (s : string) : String.compare s s = Eq.
Proof. induction s as [|a s IH]; cbn; [reflexivity|]. now rewrite ascii_compare_refl. Qed.

Lemma string_compare_Eq (s t : string) : String.compare s t = Eq <-> s = t.
Proof.
  split; [apply String.compare_eq_iff | intros ->; apply string_compare_refl].
Qed.

Lemma ascii_compare_lt_trans (a b c : Ascii.ascii) :
  Ascii.compare a b = Lt -> Ascii.compare b c = Lt -> Ascii.compare a c = Lt.
Proof.
  unfold Ascii.compare. rewrite !N.compare_lt_iff. apply N.lt_trans.
Qed.

Lemma string_compare_lt_trans (s t u : string) :
  String.compare s t = Lt -> String.compare t u = Lt ->
  String.compare s u = Lt.
Proof.
  revert t u. induction s as [|a s IH]; intros [|b t] [|c u]; cbn;
    try discriminate; try reflexivity.
  destruct (Ascii.compare a b) eqn:Hab; try discriminate;
    destruct (Ascii.compare b c) eqn:Hbc; try discriminate; intros Hst Htu.
  - apply Ascii.compare_eq_iff in Hab, Hbc. subst.
    rewrite ascii_compare_refl. now apply (IH t u).
  - apply Ascii.compare_eq_iff in Hab. subst. now rewrite Hbc.
  - apply Ascii.compare_eq_iff in Hbc. subst. now rewrite Hab.
  - now rewrite (ascii_compare_lt_trans a b c).
Qed.

Lemma string_leb_trans (s t u : string) :
  String.leb s t = true -> String.leb t u = true -> String.leb s u = true.
Proof.
  unfold String.leb.
  destruct (String.compare s t) eqn:Hst; try discriminate;
    destruct (String.compare t u) eqn:Htu; try discriminate; intros _ _.
  - apply string_compare_Eq in Hst, Htu. subst. now rewrite string_compare_refl.
  - apply string_compare_Eq in Hst. subst. now rewrite Htu.
  - apply string_compare_Eq in Htu. subst. now rewrite Hst.
  - now rewrite (string_compare_lt_trans s t u).
Qed.

#[local] Instance item_le_total : Total item_le.
Proof.
  intros [k1 v1] [k2 v2]. unfold item_le, item_leb. cbn.
  rewrite (String.compare_antisym k2 k1).
  destruct (String.compare k1 k2) eqn:Hk; cbn; auto.
  apply String.leb_total.
Qed.

#[local] Instance item_le_trans : Transitive item_le.
Proof.
  intros [k1 v1] [k2 v2] [k3 v3]. unfold item_le, item_leb. cbn.
  destruct (String.compare k1 k2) eqn:H12; try discriminate;
    destruct (String.compare k2 k3) eqn:H23; try discriminate; intros Hv1 Hv2.
  - apply string_compare_Eq in H12, H23. subst. rewrite string_compare_refl.
    now apply (string_leb_trans v1 v2 v3).
  - apply string_compare_Eq in H12. subst. now rewrite H23.
  - apply string_compare_Eq in H23. subst. now rewrite H12.
  - now rewrite (string_compare_lt_trans k1 k2 k3).
Qed.

Lemma item_le_key_lt (x y : string * string) :
  item_le x y -> fst x <> fst y -> key_lt x y.
Proof.
  unfold item_le, item_leb, key_lt, String.ltb.
  destruct (String.compare (fst x) (fst y)) eqn:Hk; try discriminate.
  - apply string_compare_Eq in Hk. congruence.
  - reflexivity.
Qed.

Lemma sorted_items_strict (l : list (string * string)) :
  StronglySorted item_le l -> NoDup (l.*1) -> StronglySorted key_lt l.
Proof.
  induction 1 as [|x l Hl IH Hx]; intros Hnd; [constructor|].
  cbn in Hnd. apply NoDup_cons in Hnd as [Hnotin Hnd].
  constructor; [now apply IH|].
  rewrite Forall_forall in *. intros y Hy.
  apply item_le_key_lt; [now apply Hx|].
  intros Heq. apply Hnotin. rewrite Heq.
  apply list_elem_of_fmap. exists y. split; [reflexivity | exact Hy].
Qed.

(** X12: [get_all] lists exactly the stored presets, each once, in
    strictly increasing order of their keys. *)
Theorem get_all_sorted_exact (pm : PresetManager) :
  StronglySorted key_lt (get_all pm)
  /\ (forall k v, (k, v) ∈ get_all pm <-> presets pm !! k = Some v)
  /\ length (get_all pm) = size (presets pm).
Proof.
  unfold get_all.
  pose proof (merge_sort_Permutation item_le (map_to_list (presets pm))) as Hperm.
  split; [|split].
  - apply sorted_items_strict.
    + apply StronglySorted_merge_sort; apply _.
    + rewrite Hperm. apply NoDup_fst_map_to_list.
  - intros k v. rewrite Hperm. apply elem_of_map_to_list.
  - rewrite Hperm. now rewrite length_map_to_list.
Qed.

Example get_all_sample :
  get_all sample_presets
  = [("blank", ""); ("chibi", "Chibi figure"); ("figure", "1/7 scale figure")].
Proof. vm_compute. reflexivity. Qed.

(** ** Adding, reading and deleting presets *)

(** X13: a preset that was added is what [get_prompt] returns for its
    key, replacing an older one; the other keys keep their prompts; and
    the dictionary handed to the newest write is the one in memory. *)
Theorem add_then_get (key prompt : string) (pm : PresetManager) :
  let pm' := add_prompt key prompt pm in
  get_prompt pm' key = prompt
  /\ (forall k, k <> key -> get_prompt pm' k = get_prompt pm k)
  /\ presets_written pm' = presets pm' :: presets_written pm.
Proof.
  cbv zeta. unfold add_prompt, get_prompt, save_all, dict_get. cbn.
  split; [now rewrite lookup_insert_eq|].
  split; [|reflexivity].
  intros k Hk. now rewrite lookup_insert_ne by congruence.
Qed.

Lemma add_then_get_witness :
  get_prompt (add_prompt "maid" "Maid outfit" sample_presets) "chibi"
  = get_prompt sample_presets "chibi".
Proof.
  apply (proj1 (proj2 (add_then_get "maid" "Maid outfit" sample_presets))).
  discriminate.
Defined.

(** X14: [delete_prompt] answers [True] exactly when the key is stored,
    and then writes the new dictionary. Afterwards the key reads as the
    empty prompt and a second deletion answers [False]; the other keys
    keep their prompts; a deletion that answers [False] changes nothing
    and writes nothing. *)
Theorem delete_prompt_spec (key : string) (pm : PresetManager) :
  let found := fst (delete_prompt key pm) in
  let pm' := snd (delete_prompt key pm) in
  (found = true <-> is_Some (presets pm !! key))
  /\ get_prompt pm' key = ""
  /\ (forall k, k <> key -> get_prompt pm' k = get_prompt pm k)
  /\ (found = false -> pm' = pm)
  /\ (found = true -> presets_written pm' = presets pm' :: presets_written pm)
  /\ delete_prompt key pm' = (false, pm').
Proof.
  cbv zeta.
  destruct (delete_prompt key pm) as [found pm'] eqn:Hdel. cbn [fst snd].
  unfold delete_prompt in Hdel.
  destruct (bool_decide (is_Some (presets pm !! key))) eqn:Hb;
    inversion Hdel; subst; clear Hdel.
  - apply bool_decide_eq_true_1 in Hb.
    split; [tauto|].
    unfold get_prompt, dict_get, save_all. cbn.
    split; [now rewrite lookup_delete_eq|].
    split; [intros k Hk; now rewrite lookup_delete_ne by congruence|].
    split; [discriminate|]. split; [reflexivity|].
    unfold delete_prompt. cbn.
    rewrite bool_decide_eq_false_2; [reflexivity|].
    rewrite lookup_delete_eq. now intros [? ?].
  - pose proof Hb as Hnone. apply bool_decide_eq_false_1 in Hnone.
    split; [split; [discriminate | tauto]|].
    split.
    { unfold get_prompt, dict_get.
      destruct (presets pm' !! key) eqn:E; [|reflexivity].
      exfalso. apply Hnone. eauto. }
    split; [reflexivity|]. split; [reflexivity|]. split; [discriminate|].
    unfold delete_prompt. now rewrite Hb.
Qed.

Lemma delete_prompt_spec_witness :
  delete_prompt "chibi" (snd (delete_prompt "chibi" sample_presets))
  = (false, snd (delete_prompt "chibi" sample_presets)).
Proof.
  exact (proj2 (proj2 (proj2 (proj2 (proj2
    (delete_prompt_spec "chibi" sample_presets)))))).
Defined.

(** X15: deleting a key right after adding it to a store that did not
    hold it answers [True] and gives back the old dictionary. *)
Theorem delete_undoes_add (key prompt : string) (pm : PresetManager) :
  presets pm !! key = None ->
  fst (delete_prompt key (add_prompt key prompt pm)) = true
  /\ presets (snd (delete_prompt key (add_prompt key prompt pm))) = presets pm.
Proof.
  intros Hnone. unfold delete_prompt, add_prompt, save_all. cbn.
  rewrite bool_decide_eq_true_2 by (rewrite lookup_insert_eq; eauto).
  cbn. split; [reflexivity|].
  rewrite delete_insert_eq. now apply delete_id.
Qed.

Lemma delete_undoes_add_witness :
  presets (snd (delete_prompt "maid" (add_prompt "maid" "Maid outfit" sample_presets)))
  = presets sample_presets.
Proof.
  exact (proj2 (delete_undoes_add "maid" "Maid outfit" sample_presets eq_refl)).
Defined.

(** ** Messages that are not requests *)

(** X16: a message is dropped without reply, charge or write when it is
    empty, when its first word is not the key of a preset, when the
    preset's prompt is the empty string, or when the sender is on the
    blacklist; the blacklist also stops administrators. *)
Theorem dropped_messages (pm : PresetManager) (conf : AstrBotConfig)
    (user_blacklist admins_id : list string) (parts : list string)
    (sender_id : string) (group_id : option string) (images : list string)
    (api : ApiResult) (em : EconomyManager) :
  parts = []
  \/ (exists cmd rest, parts = cmd :: rest /\ presets pm !! cmd = None)
  \/ (exists cmd rest, parts = cmd :: rest /\ presets pm !! cmd = Some "")
  \/ sender_id ∈ user_blacklist ->
  message_entry pm conf user_blacklist admins_id parts sender_id group_id
    images api em
  = (None, em).
Proof.
  unfold message_entry, get_prompt, dict_get.
  intros [-> | [(cmd & rest & -> & Hk) | [(cmd & rest & -> & Hk) | Hbl]]];
    try reflexivity; try (rewrite Hk; reflexivity).
  destruct parts as [|cmd rest]; [reflexivity|].
  destruct (String.eqb _ ""); [reflexivity|].
  now rewrite bool_decide_eq_true_2.
Qed.

Lemma dropped_messages_witness :
  message_entry sample_presets (gates None None) ["spammer"] ["spammer"]
    ["chibi"; "red"; "hair"] "spammer" None ["png"] ApiBytes
    (manager {["spammer" := 3]} ∅)
  = (None, manager {["spammer" := 3]} ∅).
Proof.
  apply dropped_messages. right. right. right. apply list_elem_of_here.
Defined.

Example blank_preset_never_triggers :
  message_entry sample_presets (gates None None) [] []
    ["blank"] "u" None ["png"] ApiBytes (manager {["u" := 3]} ∅)
  = (None, manager {["u" := 3]} ∅).
Proof. reflexivity. Qed.



(** * Properties of the administrator's command *)

Section AddPointsProperties.

Variable isdigit : string -> bool.
Variable int_of : string -> Result Z.

Abbreviation no_mention := (Forall (fun comp => comp = OtherComponent)).

Lemma scan_components_no_mention (comps : list Component) (nums : list string)
    (target : option string) (count : option Z) :
  no_mention comps ->
  scan_components int_of comps nums target count = Ok (target, count).
Proof.
  induction 1 as [|comp comps -> _ IH]; cbn; [reflexivity | exact IH].
Qed.

(** X18: with no mention in the message and at least two all-digit words,
    the command credits the user named by the second all-digit word, and
    the count is the third all-digit word if there is one and otherwise
    the second one again; the first all-digit word is not used. A message
    of the form "command 123 5" thus credits user 5 with 5. *)
Theorem numbers_without_mention (parts : list string) (comps : list Component)
    (a b : string) (rest : list string) (c : Z) (em : EconomyManager) :
  filter (fun x => isdigit x = true) parts = a :: b :: rest ->
  no_mention comps ->
  b <> "" ->
  int_of (hd b rest) = Ok c ->
  cmd_add_points isdigit int_of true parts comps em
  = (Ok (Some (msg_added_user b c (get_user_count em b + c))),
     user_credited b c em).
Proof.
  intros Hnums Hcomps Hb Hc.
  unfold cmd_add_points, read_target_and_count. cbn [negb]. rewrite Hnums.
  assert (Hguess : first_guess int_of (a :: b :: rest) = Ok (Some b, Some c)).
  { unfold first_guess. destruct rest as [|n2 rest']; cbn [hd] in Hc;
      now rewrite Hc. }
  rewrite Hguess, (scan_components_no_mention _ _ _ _ Hcomps).
  assert (Htruthy : truthy (Some b) = true).
  { cbn. now rewrite (proj2 (String.eqb_neq b "") Hb). }
  rewrite Htruthy. cbn [negb andb]. cbn beta iota. rewrite Htruthy.
  unfold bind. rewrite admin_add_points_paths. reflexivity.
Qed.

(** X19: with one mention of a non-empty id and a single all-digit word
    different from that id, the command credits the mentioned user with
    that number. *)
Theorem mention_and_number (parts : list string) (before after : list Component)
    (qq n : string) (c : Z) (em : EconomyManager) :
  filter (fun x => isdigit x = true) parts = [n] ->
  no_mention before -> no_mention after ->
  qq <> "" -> n <> qq ->
  int_of n = Ok c ->
  cmd_add_points isdigit int_of true parts (before ++ At qq :: after) em
  = (Ok (Some (msg_added_user qq c (get_user_count em qq + c))),
     user_credited qq c em).
Proof.
  intros Hnums Hbefore Hafter Hqq Hn Hc.
  unfold cmd_add_points, read_target_and_count. cbn [negb]. rewrite Hnums.
  cbn [first_guess].
  assert (Hscan : scan_components int_of (before ++ At qq :: after) [n] None None
                  = Ok (Some qq, Some c)).
  { induction Hbefore as [|comp before -> _ IH]; cbn; [|exact IH].
    rewrite (proj2 (String.eqb_neq n qq) Hn), Hc.
    now apply scan_components_no_mention. }
  rewrite Hscan.
  assert (Htruthy : truthy (Some qq) = true).
  { cbn. now rewrite (proj2 (String.eqb_neq qq "") Hqq). }
  rewrite Htruthy. cbn [negb andb]. cbn beta iota. rewrite Htruthy.
  unfold bind. rewrite admin_add_points_paths. reflexivity.
Qed.

Lemma first_guess_count (nums : list string) (target : option string)
    (count : option Z) :
  first_guess int_of nums = Ok (target, count) -> count_from int_of nums count.
Proof.
  unfold first_guess, count_from.
  destruct nums as [|n0 [|n1 [|n2 rest]]]; intros H c ->;
    try discriminate H.
  - destruct (int_of n1) eqn:E; inversion H; subst.
    exists n1. split; [set_solver | exact E].
  - destruct (int_of n2) eqn:E; inversion H; subst.
    exists n2. split; [set_solver | exact E].
Qed.

Lemma scan_nums_count (target : string) (all nums : list string)
    (count count' : option Z) :
  nums ⊆ all -> count_from int_of all count ->
  scan_nums int_of target nums count = Ok count' -> count_from int_of all count'.
Proof.
  revert count. induction nums as [|n nums IH]; intros count Hsub Hcount; cbn.
  - intros H. now inversion H; subst.
  - destruct (String.eqb n target).
    + apply IH; [set_solver | exact Hcount].
    + destruct (int_of n) as [c|e] eqn:E; [|discriminate].
      apply IH; [set_solver|].
      intros c' [= <-]. exists n. split; [set_solver | exact E].
Qed.

Lemma scan_components_count (comps : list Component) (nums : list string)
    (target target' : option string) (count count' : option Z) :
  count_from int_of nums count ->
  scan_components int_of comps nums target count = Ok (target', count') ->
  count_from int_of nums count'.
Proof.
  revert target count. induction comps as [|[qq|] comps IH];
    intros target count Hcount; cbn.
  - intros H. now inversion H; subst.
  - destruct (scan_nums int_of qq nums count) as [count1|e] eqn:E; [|discriminate].
    apply IH. now apply (scan_nums_count qq nums nums count count1).
  - now apply IH.
Qed.

Lemma read_count_from (parts : list string) (comps : list Component)
    (target : option string) (count : option Z) :
  read_target_and_count isdigit int_of parts comps = Ok (target, count) ->
  count_from int_of (filter (fun x => isdigit x = true) parts) count.
Proof.
  unfold read_target_and_count.
  destruct (first_guess int_of _) as [[t0 c0]|e] eqn:Hguess; [|discriminate].
  destruct (scan_components int_of comps _ t0 c0) as [[t1 c1]|e] eqn:Hscan;
    [|discriminate].
  pose proof (scan_components_count _ _ _ _ _ _
                (first_guess_count _ _ _ Hguess) Hscan) as Hc1.
  destruct (negb (truthy t1) && _).
  - destruct (filter _ parts) as [|n0 [|n1 rest]] eqn:Hnums;
      try (intros H; now inversion H; subst).
    destruct (int_of n1) as [c|e] eqn:E; [|discriminate].
    intros [= <- <-]. intros c' [= <-].
    exists n1. split; [set_solver | exact E].
  - intros H. now inversion H; subst.
Qed.

(** X20: what the command can do at most. Someone who is not an
    administrator changes nothing and gets no reply. For an
    administrator the manager is left as it was or exactly one credit is
    made, always to the user ledger, and its count is the value of an
    all-digit word of the message. *)
Theorem cmd_add_points_at_most (admin : bool) (parts : list string)
    (comps : list Component) (em : EconomyManager) :
  (admin = false ->
   cmd_add_points isdigit int_of admin parts comps em = (Ok None, em))
  /\ (exec (cmd_add_points isdigit int_of admin parts comps) em = em
      \/ exists t n c,
           n ∈ parts /\ isdigit n = true /\ int_of n = Ok c
           /\ exec (cmd_add_points isdigit int_of admin parts comps) em
              = user_credited t c em).
Proof.
  split; [intros ->; reflexivity|].
  unfold cmd_add_points, exec.
  destruct admin; cbn [negb]; [|now left].
  destruct (read_target_and_count isdigit int_of parts comps)
    as [[[t|] [c|]]|e] eqn:Hread; try (now left).
  destruct (truthy (Some t)); [|now left].
  destruct (read_count_from _ _ _ _ Hread c eq_refl) as (n & Hn & Hint).
  apply list_elem_of_filter in Hn as [Hdigit Hin].
  right. exists t, n, c. repeat split; try assumption.
  unfold bind. now rewrite admin_add_points_paths.
Qed.

End AddPointsProperties.

Lemma numbers_without_mention_witness :
  cmd_add_points ascii_isdigit ascii_int true ["cmd"; "123"; "5"]
    [OtherComponent] (manager ∅ ∅)
  = (Ok (Some (msg_added_user "5" 5 (get_user_count (manager ∅ ∅) "5" + 5))),
     user_credited "5" 5 (manager ∅ ∅)).
Proof.
  refine (numbers_without_mention ascii_isdigit ascii_int ["cmd"; "123"; "5"]
            [OtherComponent] "123" "5" [] 5 (manager ∅ ∅) eq_refl _ _ eq_refl).
  - repeat constructor.
  - discriminate.
Defined.

Lemma mention_and_number_witness :
  cmd_add_points ascii_isdigit ascii_int true ["cmd"; "5"]
    ([OtherComponent] ++ At "123" :: []) (manager ∅ ∅)
  = (Ok (Some (msg_added_user "123" 5 (get_user_count (manager ∅ ∅) "123" + 5))),
     user_credited "123" 5 (manager ∅ ∅)).
Proof.
  refine (mention_and_number ascii_isdigit ascii_int ["cmd"; "5"]
            [OtherComponent] [] "123" "5" 5 (manager ∅ ∅) eq_refl _ _ _ _ eq_refl).
  - repeat constructor.
  - constructor.
  - discriminate.
  - discriminate.
Defined.

Lemma cmd_add_points_at_most_witness :
  cmd_add_points ascii_isdigit ascii_int false ["cmd"; "123"; "5"] []
    (manager ∅ ∅)
  = (Ok None, manager ∅ ∅).
Proof.
  exact (proj1 (cmd_add_points_at_most ascii_isdigit ascii_int false
                  ["cmd"; "123"; "5"] [] (manager ∅ ∅)) eq_refl).
Defined.

(** * Properties of the picture helpers *)

(** ** Downloads *)

Lemma download_loop_attempts (fetch : nat -> option string) (max_retries : Z)
    (todo i : nat) :
  todo <> 0%nat ->
  (1 <= length (List.filter is_get (snd (download_loop fetch max_retries i todo))))%nat.
Proof.
  destruct todo as [|todo]; [congruence|]. intros _. cbn.
  destruct (fetch i); [cbn; lia|].
  destruct (Z.of_nat i <? max_retries); [|cbn; lia].
  destruct (download_loop fetch max_retries (S i) todo). cbn. lia.
Qed.

Lemma download_loop_spec (fetch : nat -> option string) (max_retries : Z)
    (todo i : nat) :
  Z.of_nat i + Z.of_nat todo = max_retries + 1 ->
  (forall body,
     fst (download_loop fetch max_retries i todo) = Some body <->
     exists k, (i <= k)%nat /\ Z.of_nat k <= max_retries
               /\ fetch k = Some body
               /\ forall j, (i <= j < k)%nat -> fetch j = None)
  /\ (length (List.filter is_get (snd (download_loop fetch max_retries i todo)))
      <= todo)%nat
  /\ length (List.filter is_sleep (snd (download_loop fetch max_retries i todo)))
     = Nat.pred
         (length (List.filter is_get (snd (download_loop fetch max_retries i todo)))).
Proof.
  revert i. induction todo as [|todo IH]; intros i Hsum.
  - cbn. split; [|split; [lia | reflexivity]].
    intros body. split; [discriminate|].
    intros (k & Hik & Hk & _). lia.
  - cbn [download_loop].
    destruct (fetch i) as [body0|] eqn:Hfetch.
    + cbn. split; [|split; [lia | reflexivity]].
      intros body. split.
      * intros [= <-]. exists i. repeat split; try lia; try assumption.
      * intros (k & Hik & Hk & Hbody & Hnone).
        destruct (decide (k = i)) as [->|Hne]; [congruence|].
        specialize (Hnone i ltac:(lia)). congruence.
    + destruct (Z.ltb_spec (Z.of_nat i) max_retries) as [Hlt|Hge].
      * specialize (IH (S i) ltac:(lia)).
        pose proof (download_loop_attempts fetch max_retries todo (S i)
                      ltac:(lia)) as Hsome.
        destruct (download_loop fetch max_retries (S i) todo) as [r evs].
        cbn [fst snd] in *. destruct IH as (IHr & IHg & IHs).
        split; [|split].
        -- intros body. rewrite IHr. split.
           ++ intros (k & Hik & Hk & Hbody & Hnone). exists k.
              repeat split; try lia; try assumption.
              intros j Hj. destruct (decide (j = i)) as [->|Hne];
                [assumption | apply Hnone; lia].
           ++ intros (k & Hik & Hk & Hbody & Hnone). exists k.
              assert (k <> i) by congruence.
              repeat split; try lia; try assumption.
              intros j Hj. apply Hnone. lia.
        -- cbn. lia.
        -- cbn. rewrite IHs. lia.
      * cbn. split; [|split; [lia | reflexivity]].
        intros body. split; [discriminate|].
        intros (k & Hik & Hk & Hbody & Hnone).
        assert (k = i) as -> by lia. congruence.
Qed.

Lemma download_loop_trace (fetch : nat -> option string) (max_retries : Z)
    (todo i : nat) :
  Z.of_nat i + Z.of_nat todo = max_retries + 1 ->
  todo <> 0%nat ->
  exists k,
    Z.of_nat (i + k) <= max_retries
    /\ (forall j, (i <= j < i + k)%nat -> fetch j = None)
    /\ ((exists body,
           fetch (i + k)%nat = Some body
           /\ download_loop fetch max_retries i todo
              = (Some body, attempts_from i k))
        \/ (fetch (i + k)%nat = None
            /\ Z.of_nat (i + k) = max_retries
            /\ download_loop fetch max_retries i todo
               = (None, (attempts_from i k ++ [LogError])%list))).
Proof.
  revert i. induction todo as [|todo IH]; intros i Hsum Htodo; [congruence|].
  cbn [download_loop].
  destruct (fetch i) as [body|] eqn:Hfetch.
  - exists 0%nat. rewrite Nat.add_0_r.
    split; [lia|]. split; [intros j Hj; lia|].
    left. exists body. split; [exact Hfetch | reflexivity].
  - destruct (Z.ltb_spec (Z.of_nat i) max_retries) as [Hlt|Hge].
    + destruct (IH (S i) ltac:(lia) ltac:(lia)) as (k & Hk & Hnone & Hend).
      exists (S k).
      replace (i + S k)%nat with (S i + k)%nat by lia.
      split; [exact Hk|]. split.
      { intros j Hj. destruct (decide (j = i)) as [->|Hne];
          [exact Hfetch | apply Hnone; lia]. }
      destruct Hend as [(body & Hbody & ->) | (Hlast & Hmax & ->)].
      * left. exists body. split; [exact Hbody | reflexivity].
      * right. split; [exact Hlast|]. split; [exact Hmax | reflexivity].
    + exists 0%nat. rewrite Nat.add_0_r.
      split; [lia|]. split; [intros j Hj; lia|].
      right. split; [exact Hfetch|]. split; [lia | reflexivity].
Qed.

(** X21: [download_image] makes attempts 0, 1, ... and returns the body
    of the first attempt that succeeds, provided its number is at most
    [max_retries]; it returns [None] when attempts 0 to [max_retries] all
    fail, and without any attempt when [max_retries] is negative. It
    makes at most [max_retries + 1] attempts, and it sleeps exactly once
    between two attempts, never after the last one: what it does on the
    network is attempt 0, sleep, attempt 1, sleep, ..., attempt [k],
    where [k] is the first attempt that succeeds, or [max_retries] when
    none does, and then the error is logged. *)
Theorem download_image_spec (fetch : nat -> option string) (max_retries : Z) :
  let result := fst (download_image fetch max_retries) in
  let evs := snd (download_image fetch max_retries) in
  (forall body,
     result = Some body <->
     exists k, Z.of_nat k <= max_retries /\ fetch k = Some body
               /\ forall j, (j < k)%nat -> fetch j = None)
  /\ (length (List.filter is_get evs) <= Z.to_nat (max_retries + 1))%nat
  /\ length (List.filter is_sleep evs)
     = Nat.pred (length (List.filter is_get evs))
  /\ (max_retries < 0 -> download_image fetch max_retries = (None, []))
  /\ (0 <= max_retries ->
      exists k,
        Z.of_nat k <= max_retries
        /\ (forall j, (j < k)%nat -> fetch j = None)
        /\ ((exists body,
               fetch k = Some body
               /\ download_image fetch max_retries
                  = (Some body, attempts_from 0 k))
            \/ (fetch k = None
                /\ Z.of_nat k = max_retries
                /\ download_image fetch max_retries
                   = (None, (attempts_from 0 k ++ [LogError])%list)))).
Proof.
  cbv zeta. unfold download_image.
  destruct (Z.ltb_spec max_retries 0) as [Hneg|Hpos].
  - replace (Z.to_nat (max_retries + 1)) with 0%nat by lia. cbn.
    split; [|split; [lia | split; [reflexivity | split; [reflexivity | lia]]]].
    intros body. split; [discriminate|]. intros (k & Hk & _). lia.
  - destruct (download_loop_spec fetch max_retries (Z.to_nat (max_retries + 1)) 0
                ltac:(lia)) as (Hr & Hg & Hs).
    split; [|split; [exact Hg | split; [exact Hs | split; [lia|]]]].
    + intros body. rewrite Hr. split.
      * intros (k & _ & Hk & Hbody & Hnone). exists k.
        repeat split; try assumption. intros j Hj. apply Hnone. lia.
      * intros (k & Hk & Hbody & Hnone). exists k.
        repeat split; try lia; try assumption. intros j Hj. apply Hnone. lia.
    + intros _.
      destruct (download_loop_trace fetch max_retries
                  (Z.to_nat (max_retries + 1)) 0 ltac:(lia) ltac:(lia))
        as (k & Hk & Hnone & Hend).
      cbn [Nat.add] in *. exists k.
      split; [exact Hk|]. split; [intros j Hj; apply Hnone; lia | exact Hend].
Qed.

Lemma download_image_spec_witness :
  download_image (fun _ => Some "png") (-1) = (None, [])
  /\ exists k,
       Z.of_nat k <= 3
       /\ (forall j, (j < k)%nat ->
                     (fun i => if (i <? 2)%nat then None else Some "png") j = None)
       /\ ((exists body,
              (fun i => if (i <? 2)%nat then None else Some "png") k = Some body
              /\ download_image
                   (fun i => if (i <? 2)%nat then None else Some "png") 3
                 = (Some body, attempts_from 0 k))
           \/ ((fun i => if (i <? 2)%nat then None else Some "png") k = None
               /\ Z.of_nat k = 3
               /\ download_image
                    (fun i => if (i <? 2)%nat then None else Some "png") 3
                  = (None, (attempts_from 0 k ++ [LogError])%list))).
Proof.
  split.
  - refine (proj1 (proj2 (proj2 (proj2
              (download_image_spec (fun _ => Some "png") (-1))))) _).
    reflexivity.
  - refine (proj2 (proj2 (proj2 (proj2
              (download_image_spec
                 (fun i => if (i <? 2)%nat then None else Some "png") 3)))) _).
    lia.
Defined.

Example download_third_attempt :
  download_image (fun i => if (i <? 2)%nat then None else Some "png") 3
  = (Some "png", [Get 0; Sleep; Get 1; Sleep; Get 2]).
Proof. reflexivity. Qed.

Example download_gives_up :
  download_image (fun _ => None) 1 = (None, [Get 0; Sleep; Get 1; LogError]).
Proof. reflexivity. Qed.

(** ** Pictures of a message *)

Section ImagesProperties.

Variable World : Type.
Variable download : string -> World -> option string * World.
Variable load_local : string -> World -> option string * World.

Lemma images_of_chain_length (chain : list Item) (w : World) :
  length (fst (images_of_chain World download chain w)) = offers_in_chain chain
  /\ (offers_in_chain chain = 0%nat ->
      images_of_chain World download chain w = ([], w)).
Proof.
  revert w. induction chain as [|[url file|] chain IH]; intros w; cbn.
  - auto.
  - destruct (truthy url).
    + destruct (download (default "" url) w) as [img w1].
      specialize (IH w1).
      destruct (images_of_chain World download chain w1) as [imgs w2].
      cbn in *. split; [lia | discriminate].
    + apply IH.
  - apply IH.
Qed.

Lemma collect_images_length (msgs : list Segment) (w : World) :
  length (fst (collect_images World download load_local msgs w)) = offers msgs
  /\ (offers msgs = 0%nat ->
      collect_images World download load_local msgs w = ([], w)).
Proof.
  revert w. induction msgs as [|[url file|chain|] msgs IH]; intros w; cbn.
  - auto.
  - destruct (truthy url); cbn [orb].
    + destruct (download (default "" url) w) as [img w1].
      specialize (IH w1).
      destruct (collect_images World download load_local msgs w1) as [imgs w2].
      cbn in *. split; [lia | discriminate].
    + destruct (truthy file).
      * destruct (load_local (default "" file) w) as [img w1].
        specialize (IH w1).
        destruct (collect_images World download load_local msgs w1) as [imgs w2].
        cbn in *. split; [lia | discriminate].
      * apply IH.
  - destruct (images_of_chain_length chain w) as [Hlen Hnone].
    destruct (images_of_chain World download chain w) as [found w1].
    specialize (IH w1).
    destruct (collect_images World download load_local msgs w1) as [imgs w2].
    cbn [fst] in *. destruct IH as [IHlen IHnone].
    split; [rewrite length_app; lia|].
    intros Hzero.
    specialize (Hnone ltac:(lia)). inversion Hnone; subst.
    specialize (IHnone ltac:(lia)). inversion IHnone; subst.
    reflexivity.
  - apply IH.
Qed.

Lemma keep_truthy_spec (imgs : list (option string)) :
  Forall (fun img => img <> "") (keep_truthy imgs)
  /\ (length (keep_truthy imgs) <= length imgs)%nat.
Proof.
  unfold keep_truthy. induction imgs as [|[img|] imgs [IHf IHl]]; cbn.
  - split; [constructor | lia].
  - destruct (String.eqb_spec img ""); cbn.
    + split; [exact IHf | lia].
    + split; [now constructor | lia].
  - split; [exact IHf | lia].
Qed.

(** X22: the pictures handed to the generation are never empty: failed
    downloads, unreadable files and empty bodies are dropped. There are
    at most as many as the message offers (images with a url or a file,
    and images with a url inside a reply; an image inside a reply that
    has only a file is not looked at), and a message that offers none
    gives the empty list without touching the network or the disk. *)
Theorem get_images_spec (msgs : list Segment) (w : World) :
  let imgs := fst (get_images_from_event World download load_local msgs w) in
  Forall (fun img => img <> "") imgs
  /\ (length imgs <= offers msgs)%nat
  /\ (offers msgs = 0%nat ->
      get_images_from_event World download load_local msgs w = ([], w)).
Proof.
  cbv zeta. unfold get_images_from_event.
  destruct (collect_images_length msgs w) as [Hlen Hnone].
  destruct (collect_images World download load_local msgs w) as [imgs w'] eqn:Hc.
  cbn [fst] in *.
  destruct (keep_truthy_spec imgs) as [Hf Hl].
  split; [exact Hf|]. split; [lia|].
  intros Hzero. specialize (Hnone Hzero). now inversion Hnone; subst.
Qed.

End ImagesProperties.

Lemma get_images_spec_witness :
  get_images_from_event unit (fun _ w => (Some "png", w)) (fun _ w => (None, w))
    [SegOther; SegReply [ImageItem None (Some "a.png")]; SegImage (Some "") None]
    tt
  = ([], tt).
Proof.
  exact (proj2 (proj2
    (get_images_spec unit (fun _ w => (Some "png", w)) (fun _ w => (None, w))
       [SegOther; SegReply [ImageItem None (Some "a.png")]; SegImage (Some "") None]
       tt)) eq_refl).
Defined.

(** ** The preview table *)

Lemma layout_of_sound (quality : string) : sound_layout (layout_of quality).
Proof.
  unfold layout_of, sound_layout.
  destruct (String.eqb quality _); [cbn; lia|].
  destruct (String.eqb quality _); cbn; lia.
Qed.

Lemma table_rows_bounds (n cols : Z) :
  0 < cols -> n <= cols * table_rows n cols < n + cols.
Proof.
  intros Hcols. unfold table_rows.
  pose proof (Z.div_mod (n + cols - 1) cols ltac:(lia)).
  pose proof (Z.mod_pos_bound (n + cols - 1) cols Hcols).
  lia.
Qed.

(** X23: the number of rows is the least one that holds all presets:
    for a positive number of columns, [rows * cols] is at least the
    number of presets and less than that number plus [cols]; no preset
    gives no row. *)
Theorem rows_are_exact (n cols : Z) :
  0 < cols -> 0 <= n ->
  n <= cols * table_rows n cols < n + cols
  /\ (n = 0 -> table_rows n cols = 0).
Proof.
  intros Hcols Hn. split; [now apply table_rows_bounds|].
  intros ->. pose proof (table_rows_bounds 0 cols Hcols). nia.
Qed.

Lemma rows_are_exact_witness :
  7 <= 5 * table_rows 7 5 < 7 + 5.
Proof.
  refine (proj1 (rows_are_exact 7 5 _ _)); lia.
Defined.

Lemma cell_row_bound (n cols i : Z) :
  0 < cols -> 0 <= i < n -> 0 <= i / cols < table_rows n cols.
Proof.
  intros Hcols Hi.
  pose proof (table_rows_bounds n cols Hcols).
  pose proof (Z.div_mod i cols ltac:(lia)).
  pose proof (Z.mod_pos_bound i cols Hcols).
  split; [apply Z.div_pos; lia | nia].
Qed.

(** X24: every cell lies on the canvas with the padding around it: for
    each quality, a positive number of columns and each preset number
    [i] below the number of presets, the cell's rectangle starts at
    least [pad] from the left and top edges and ends at least [pad]
    before the right and bottom edges. *)
Theorem cells_inside_table (quality : string) (n cols i : Z) :
  0 < cols -> 0 <= i < n ->
  let L := layout_of quality in
  pad L <= cell_x L cols i
  /\ cell_x L cols i + cell_w L + pad L <= table_w L cols
  /\ pad L <= cell_y L cols i
  /\ cell_y L cols i + cell_h L + pad L <= table_h L n cols.
Proof.
  intros Hcols Hi. cbv zeta.
  destruct (layout_of_sound quality) as (Hpad & Hw & Himg & Hh).
  pose proof (cell_row_bound n cols i Hcols Hi).
  pose proof (Z.mod_pos_bound i cols Hcols).
  unfold cell_x, cell_y, table_w, table_h.
  repeat split; nia.
Qed.

Lemma cells_inside_table_witness :
  cell_x (layout_of "高清") 5 6 + cell_w (layout_of "高清") + pad (layout_of "高清")
  <= table_w (layout_of "高清") 5.
Proof.
  refine (proj1 (proj2 (cells_inside_table "高清" 7 5 6 _ _))); lia.
Defined.

(** X25: two different presets never share a pixel: their cells are at
    least [pad] apart, side by side or one above the other. *)
Theorem cells_do_not_overlap (quality : string) (cols i j : Z) :
  0 < cols -> 0 <= i -> 0 <= j -> i <> j ->
  let L := layout_of quality in
  cell_x L cols i + cell_w L + pad L <= cell_x L cols j
  \/ cell_x L cols j + cell_w L + pad L <= cell_x L cols i
  \/ cell_y L cols i + cell_h L + pad L <= cell_y L cols j
  \/ cell_y L cols j + cell_h L + pad L <= cell_y L cols i.
Proof.
  intros Hcols Hi Hj Hne. cbv zeta.
  destruct (layout_of_sound quality) as (Hpad & Hw & Himg & Hh).
  pose proof (Z.div_mod i cols ltac:(lia)).
  pose proof (Z.div_mod j cols ltac:(lia)).
  unfold cell_x, cell_y.
  destruct (Z.lt_trichotomy (i / cols) (j / cols)) as [Hr | [Hr | Hr]].
  - right. right. left. nia.
  - destruct (Z.lt_trichotomy (i mod cols) (j mod cols)) as [Hc | [Hc | Hc]].
    + left. nia.
    + exfalso. apply Hne. congruence.
    + right. left. nia.
  - right. right. right. nia.
Qed.

Lemma cells_do_not_overlap_witness :
  cell_x (layout_of "标准") 5 0 + cell_w (layout_of "标准") + pad (layout_of "标准")
  <= cell_x (layout_of "标准") 5 5
  \/ cell_x (layout_of "标准") 5 5 + cell_w (layout_of "标准") + pad (layout_of "标准")
     <= cell_x (layout_of "标准") 5 0
  \/ cell_y (layout_of "标准") 5 0 + cell_h (layout_of "标准") + pad (layout_of "标准")
     <= cell_y (layout_of "标准") 5 5
  \/ cell_y (layout_of "标准") 5 5 + cell_h (layout_of "标准") + pad (layout_of "标准")
     <= cell_y (layout_of "标准") 5 0.
Proof.
  refine (cells_do_not_overlap "标准" 5 0 5 _ _ _ _); lia.
Defined.

(** X26: a preview that [thumbnail] has fitted into the box
    [(cell_w - 2*pad, img_h - 2*pad)] is pasted inside the picture area
    of its cell, at least [pad] away from the cell's border and from the
    label strip below. *)
Theorem preview_stays_in_cell (quality : string) (cols i w h : Z) :
  let L := layout_of quality in
  0 <= w <= cell_w L - 2 * pad L ->
  0 <= h <= img_h L - 2 * pad L ->
  cell_x L cols i + pad L <= paste_x L cols i w
  /\ paste_x L cols i w + w <= cell_x L cols i + cell_w L - pad L
  /\ cell_y L cols i + pad L <= paste_y L cols i h
  /\ paste_y L cols i h + h <= cell_y L cols i + img_h L - pad L.
Proof.
  cbv zeta. intros Hw Hh.
  unfold paste_x, paste_y.
  pose proof (Z.div_mod (cell_w (layout_of quality) - w) 2 ltac:(lia)).
  pose proof (Z.mod_pos_bound (cell_w (layout_of quality) - w) 2 ltac:(lia)).
  pose proof (Z.div_mod (img_h (layout_of quality) - h) 2 ltac:(lia)).
  pose proof (Z.mod_pos_bound (img_h (layout_of quality) - h) 2 ltac:(lia)).
  lia.
Qed.

Lemma preview_stays_in_cell_witness :
  cell_x (layout_of "other") 5 3 + pad (layout_of "other")
  <= paste_x (layout_of "other") 5 3 357.
Proof.
  refine (proj1 (preview_stays_in_cell "other" 5 3 357 200 _ _)); cbn; lia.
Defined.
